(** * Ubuntu-on-Web backend: the deploy pipeline of [backend/index.js]

    A shallow embedding of the Express backend (task store, [POST /deploy],
    [GET /status/:id], the fire-and-forget provisioning pipeline and
    [getFreePort]) as an event-driven state machine.  Node runs every
    callback to completion, so one transition of the machine is one
    run-to-completion segment of the JavaScript: from the resumption of an
    [await] (or the arrival of a request) to the next [await]. *)

From Stdlib Require Import ZArith Lia DecimalString DecimalZ DecimalPos.
From stdpp Require Import gmap strings list fin_maps.

(** ** JavaScript values that cross the HTTP boundary *)

#[local] Unset Elimination Schemes.
Inductive jsval :=
  | JUndefined
  | JNull
  | JBool (b : bool)
  | JNum (n : Z)
  | JStr (s : string)
  | JArr (items : list jsval)
  | JObj (props : list (string * jsval)).
#[local] Set Elimination Schemes.

(** Own property lookup on a serialised object. *)
Fixpoint assoc (k : string) (props : list (string * jsval)) : option jsval :=
  match props with
  | [] => None
  | (k', v) :: rest => if String.eqb k k' then Some v else assoc k rest
  end.

Definition get_prop (k : string) (v : jsval) : option jsval :=
  match v with
  | JObj props => assoc k props
  | _ => None
  end.

Record response := { code : Z; body : jsval }.

(** ** IEEE-754 binary64 numbers in the unit interval

    [Math.random()] yields a binary64 number in [[0,1)].  Such a number is
    [mant * 2^-expo] with a significand below [2^53]. *)

Module Float64.
Local Open Scope Z_scope.

Record double := { mant : Z; expo : Z }.

Definition is_unit (d : double) : bool :=
  (0 <=? mant d) && (mant d <? 2 ^ 53) &&
  (0 <=? expo d) && (expo d <=? 1074) && (mant d <? 2 ^ expo d).

(** Round a non-negative integer to 53 significant bits, ties to even. *)
Definition round53 (m : Z) : Z :=
  let sh := Z.log2 m - 52 in
  if sh <=? 0 then m
  else
    let q := m / 2 ^ sh in
    let r := m mod 2 ^ sh in
    let half := 2 ^ (sh - 1) in
    let q' := if (half <? r) || ((r =? half) && Z.odd q) then q + 1 else q in
    q' * 2 ^ sh.

(** [Math.floor(d * k)] for a small positive integer [k]: the exact
    product [mant * k * 2^-expo] is rounded to binary64, then floored. *)
Definition floor_mul (d : double) (k : Z) : Z :=
  round53 (mant d * k) / 2 ^ expo d.
End Float64.
Import Float64.

(** ** The task store *)

Inductive Status := Queued | Pulling | Creating | Starting | Running | Error.

Global Instance Status_eq_dec : EqDecision Status.
Proof. solve_decision. Defined.

Definition status_str (s : Status) : string :=
  match s with
  | Queued => "queued"
  | Pulling => "pulling"
  | Creating => "creating"
  | Starting => "starting"
  | Running => "running"
  | Error => "error"
  end.

(** A task object: [{ status, type }] at creation; [containerId],
    [hostPort] and [error] are properties added later. *)
Record Task := {
  status : Status;
  type : string;
  containerId : option string;
  hostPort : option Z;
  error : option string
}.

Definition with_status (st : Status) (t : Task) : Task :=
  {| status := st; type := type t; containerId := containerId t;
     hostPort := hostPort t; error := error t |}.

Definition with_containerId (h : string) (t : Task) : Task :=
  {| status := status t; type := type t; containerId := Some h;
     hostPort := hostPort t; error := error t |}.

Definition with_hostPort (p : Z) (t : Task) : Task :=
  {| status := status t; type := type t; containerId := containerId t;
     hostPort := Some p; error := error t |}.

Definition with_error (m : string) (t : Task) : Task :=
  {| status := status t; type := type t; containerId := containerId t;
     hostPort := hostPort t; error := Some m |}.

(** [tasks[id] = { status: 'queued', type }] *)
Definition new_task (ty : string) : Task :=
  {| status := Queued; type := ty; containerId := None;
     hostPort := None; error := None |}.

(** [res.json(t)]: the own properties of the task object, in insertion
    order. *)
Definition opt_prop {A} (k : string) (f : A -> jsval) (o : option A)
  : list (string * jsval) :=
  match o with
  | Some a => [(k, f a)]
  | None => []
  end.

Definition task_json (t : Task) : jsval :=
  JObj ([("status", JStr (status_str (status t))); ("type", JStr (type t))]
        ++ opt_prop "containerId" JStr (containerId t)
        ++ opt_prop "hostPort" JNum (hostPort t)
        ++ opt_prop "error" JStr (error t)).

(** ** Port allocator: [getFreePort] *)

Definition port_min : Z := 30000.
Definition port_max : Z := 40000.
Definition attempts : nat := 100.

(** [Math.floor(Math.random()*(max-min))+min] *)
Definition candidate (rnd : double) : Z :=
  (floor_mul rnd (port_max - port_min) + port_min)%Z.

Definition no_free_ports : string := "no free ports".

(** What happens when the [await] of the bind probe of iteration [i] on
    port [p] resumes: return [p], go round the loop, or throw. *)
Inductive probe_next :=
  | Return (p : Z)
  | Retry (i : nat) (p : Z)
  | Throw (msg : string).

Definition after_bind (i : nat) (p : Z) (listening : bool) (rnd : double)
  : probe_next :=
  if listening then Return p
  else if S i <? attempts then Retry (S i) (candidate rnd)
  else Throw no_free_ports.

(** The whole function against an oracle for [Math.random] and for the
    outcome of each bind probe.  [remaining] is [100 - i]. *)
Fixpoint getFreePort_from (remaining i : nat)
    (rnd : nat -> double) (bind : nat -> Z -> bool) : Z + string :=
  match remaining with
  | O => inr no_free_ports
  | S k =>
      let p := candidate (rnd i) in
      if bind i p then inl p else getFreePort_from k (S i) rnd bind
  end.

Definition getFreePort (rnd : nat -> double) (bind : nat -> Z -> bool)
  : Z + string :=
  getFreePort_from attempts 0 rnd bind.

(** ** Statements of the pipeline: a store-passing monad with exceptions

    The body of the [try] mutates [tasks] and may throw; what is thrown is
    represented by its [message], the only part the [catch] block reads. *)

Definition Pipe (A : Type) : Type :=
  gmap string Task -> (A + string) * gmap string Task.

Definition ret {A} (a : A) : Pipe A := fun σ => (inl a, σ).

Definition throw {A} (msg : string) : Pipe A := fun σ => (inr msg, σ).

Definition bind {A B} (c : Pipe A) (k : A -> Pipe B) : Pipe B :=
  fun σ =>
    match c σ with
    | (inl a, σ') => k a σ'
    | (inr msg, σ') => (inr msg, σ')
    end.

Notation "c ;;; k" := (bind c (fun _ => k))
  (at level 100, k at level 200, right associativity).

Definition type_error : string := "Cannot set properties of undefined".

(** [tasks[id].prop = v]: a [TypeError] when [tasks[id]] is undefined. *)
Definition update (id : string) (f : Task -> Task) : Pipe unit :=
  fun σ =>
    match σ !! id with
    | Some t => (inl tt, <[id := f t]> σ)
    | None => (inr type_error, σ)
    end.

(** Where the async function is suspended, with the closure variables that
    later statements write to the store. *)
Inductive cont :=
  | AwaitPull
  | AwaitBind (i : nat) (p : Z)
  | AwaitCreate (port : Z)
  | AwaitStart (port : Z) (container : string)
  | AwaitTimer (port : Z) (container : string)
  | Settled
  | Unhandled.

Inductive outcome := Resolved | Rejected (message : string).

(** [catch (err) { tasks[id].status = 'error'; tasks[id].error = err.message }] *)
Definition catch_block (id msg : string) : Pipe cont :=
  update id (with_status Error) ;;;
  update id (with_error msg) ;;;
  ret Settled.

(** [try { body } catch (err) { ... }]; an exception that escapes the
    [catch] block rejects the promise of the async function, which nobody
    handles. *)
Definition try_catch (id : string) (body : Pipe cont)
  : gmap string Task -> cont * gmap string Task :=
  fun σ =>
    match body σ with
    | (inl k, σ') => (k, σ')
    | (inr msg, σ') =>
        match catch_block id msg σ' with
        | (inl k, σ'') => (k, σ'')
        | (inr _, σ'') => (Unhandled, σ'')
        end
    end.

(** The run-to-completion segments of the [try] body, one per resumption. *)

(** Up to the [await] of the pull. *)
Definition seg_launch (id : string) : Pipe cont :=
  update id (with_status Pulling) ;;;
  ret AwaitPull.

(** From the settled pull into [getFreePort], up to its first bind probe. *)
Definition seg_pulled (id : string) (r : outcome) (rnd : double) : Pipe cont :=
  match r with
  | Rejected msg => throw msg
  | Resolved =>
      update id (with_status Creating) ;;;
      ret (AwaitBind 0 (candidate rnd))
  end.

(** From a settled bind probe to the next probe, or out of [getFreePort]
    up to the [await] of [docker.createContainer]. *)
Definition seg_probed (i : nat) (p : Z) (listening : bool) (rnd : double)
  : Pipe cont :=
  match after_bind i p listening rnd with
  | Return q => ret (AwaitCreate q)
  | Retry i' p' => ret (AwaitBind i' p')
  | Throw msg => throw msg
  end.

(** From the settled create to the [await] of [container.start()]. *)
Definition seg_created (id : string) (port : Z) (r : string + string)
  : Pipe cont :=
  match r with
  | inr msg => throw msg
  | inl container =>
      update id (with_status Starting) ;;;
      ret (AwaitStart port container)
  end.

(** From the settled start to the [await] of the 6000 ms timer. *)
Definition seg_started (port : Z) (container : string) (r : outcome)
  : Pipe cont :=
  match r with
  | Rejected msg => throw msg
  | Resolved => ret (AwaitTimer port container)
  end.

(** After the timer: the last three statements of the [try] body. *)
Definition seg_timer (id : string) (port : Z) (container : string)
  : Pipe cont :=
  update id (with_status Running) ;;;
  update id (with_containerId container) ;;;
  update id (with_hostPort port) ;;;
  ret Settled.

(** ** The server *)

Record state := {
  tasks : gmap string Task;
  procs : gmap string cont
}.

Definition init : state := {| tasks := ∅; procs := ∅ |}.

Definition resume (id : string) (seg : Pipe cont) (s : state) : state :=
  let '(k, σ) := try_catch id seg (tasks s) in
  {| tasks := σ; procs := <[id := k]> (procs s) |}.

(** [['desktop','server'].includes(type)] *)
Definition includes_type (v : jsval) : option string :=
  match v with
  | JStr s =>
      if String.eqb s "desktop" || String.eqb s "server" then Some s else None
  | _ => None
  end.

Definition createTask (id ty : string) (σ : gmap string Task)
  : gmap string Task :=
  <[id := new_task ty]> σ.

Definition bad_type : response :=
  {| code := 400;
     body := JObj [("error", JStr "type must be desktop or server")] |}.

Definition accepted (id : string) : response :=
  {| code := 200; body := JObj [("id", JStr id)] |}.

Definition not_found : response :=
  {| code := 404; body := JObj [("error", JStr "task not found")] |}.

(** [app.post('/deploy', ...)]; [uuid] is what [uuidv4()] returns. *)
Definition deploy (v : jsval) (uuid : string) (s : state) : state * response :=
  match includes_type v with
  | None => (s, bad_type)
  | Some ty =>
      let queued :=
        {| tasks := createTask uuid ty (tasks s); procs := procs s |} in
      (resume uuid (seg_launch uuid) queued, accepted uuid)
  end.

(** [app.get('/status/:id', ...)], for ids that are not names of
    properties of [Object.prototype]. *)
Definition get_status (id : string) (s : state) : response :=
  match tasks s !! id with
  | None => not_found
  | Some t => {| code := 200; body := task_json t |}
  end.

(** What the event loop delivers.  [rnd] is the value [Math.random()]
    returns if the segment reaches it. *)
Inductive event :=
  | Deploy (body_type : jsval) (uuid : string)
  | GetStatus (id : string)
  | PullDone (id : string) (r : outcome) (rnd : double)
  | BindDone (id : string) (listening : bool) (rnd : double)
  | CreateDone (id : string) (r : string + string)
  | StartDone (id : string) (r : outcome)
  | TimerFired (id : string).

(** One turn of the event loop.  [None] means the environment cannot
    deliver the event in this state: a completion for a call that is not
    pending, a [Math.random()] outside [[0,1)], or a [uuidv4()] that repeats
    an id already handed out. *)
Definition step (e : event) (s : state) : option state :=
  match e with
  | Deploy v uuid =>
      match includes_type v, tasks s !! uuid with
      | Some _, Some _ => None
      | _, _ => Some (fst (deploy v uuid s))
      end
  | GetStatus _ => Some s
  | PullDone id r rnd =>
      match procs s !! id with
      | Some AwaitPull =>
          if is_unit rnd then Some (resume id (seg_pulled id r rnd) s) else None
      | _ => None
      end
  | BindDone id listening rnd =>
      match procs s !! id with
      | Some (AwaitBind i p) =>
          if is_unit rnd then Some (resume id (seg_probed i p listening rnd) s)
          else None
      | _ => None
      end
  | CreateDone id r =>
      match procs s !! id with
      | Some (AwaitCreate port) => Some (resume id (seg_created id port r) s)
      | _ => None
      end
  | StartDone id r =>
      match procs s !! id with
      | Some (AwaitStart port h) => Some (resume id (seg_started port h r) s)
      | _ => None
      end
  | TimerFired id =>
      match procs s !! id with
      | Some (AwaitTimer port h) => Some (resume id (seg_timer id port h) s)
      | _ => None
      end
  end.

Fixpoint run (evs : list event) (s : state) : option state :=
  match evs with
  | [] => Some s
  | e :: rest =>
      match step e s with
      | Some s' => run rest s'
      | None => None
      end
  end.

Inductive reachable : state -> Prop :=
  | reach_init : reachable init
  | reach_step s e s' : reachable s -> step e s = Some s' -> reachable s'.

(** ** Vocabulary of the properties *)

(** Edges of the status diagram. *)
Definition terminal (a : Status) : bool :=
  match a with
  | Running | Error => true
  | _ => false
  end.

Inductive transition : Status -> Status -> Prop :=
  | tr_pull : transition Queued Pulling
  | tr_create : transition Pulling Creating
  | tr_start : transition Creating Starting
  | tr_run : transition Starting Running
  | tr_fail a : terminal a = false -> transition a Error.

(** Position in the pipeline order, the failure state last. *)
Definition rank (a : Status) : nat :=
  match a with
  | Queued => 0
  | Pulling => 1
  | Creating => 2
  | Starting => 3
  | Running => 4
  | Error => 5
  end.

Definition in_range (p : Z) : Prop := (port_min <= p < port_max)%Z.

Definition bare (t : Task) : Prop :=
  containerId t = None /\ hostPort t = None /\ error t = None.

(** What the store holds for a pipeline suspended at [k]. *)
Definition consistent (k : cont) (t : Task) : Prop :=
  match k with
  | AwaitPull => status t = Pulling /\ bare t
  | AwaitBind i p =>
      status t = Creating /\ bare t /\ i < attempts /\ in_range p
  | AwaitCreate p => status t = Creating /\ bare t /\ in_range p
  | AwaitStart p _ | AwaitTimer p _ =>
      status t = Starting /\ bare t /\ in_range p
  | Settled =>
      (status t = Running /\ (exists h, containerId t = Some h) /\
       (exists p, hostPort t = Some p /\ in_range p) /\ error t = None)
      \/ (status t = Error /\ containerId t = None /\ hostPort t = None /\
          exists m, error t = Some m)
  | Unhandled => False
  end.

Definition inv (s : state) : Prop :=
  forall id,
    match procs s !! id, tasks s !! id with
    | Some k, Some t => consistent k t
    | None, None => True
    | _, _ => False
    end.

(** The pipeline an event resumes. *)
Definition subject (e : event) : option string :=
  match e with
  | Deploy _ _ | GetStatus _ => None
  | PullDone id _ _ | BindDone id _ _ | CreateDone id _ | StartDone id _
  | TimerFired id => Some id
  end.

(** The [message] of what delivering [e] makes a pipeline suspended at [k]
    throw, if it throws. *)
Definition throws (e : event) (k : cont) : option string :=
  match e, k with
  | PullDone _ (Rejected msg) _, AwaitPull => Some msg
  | BindDone _ listening rnd, AwaitBind i p =>
      match after_bind i p listening rnd with
      | Throw msg => Some msg
      | _ => None
      end
  | CreateDone _ (inr msg), AwaitCreate _ => Some msg
  | StartDone _ (Rejected msg), AwaitStart _ _ => Some msg
  | _, _ => None
  end.

(** The failure, if any, that delivering [e] in state [s] raises inside a
    pipeline: the task id and the [message] of what is thrown. *)
Definition raises (e : event) (s : state) : option (string * string) :=
  match subject e with
  | Some id =>
      match procs s !! id with
      | Some k =>
          match throws e k with
          | Some msg => Some (id, msg)
          | None => None
          end
      | None => None
      end
  | None => None
  end.

(** The port a pipeline has taken out of [getFreePort] and not given up:
    the closure variable [hostPort] from the successful probe on, then the
    property of the running task. *)
Definition held_of (k : cont) (t : Task) : option Z :=
  match k with
  | AwaitCreate p | AwaitStart p _ | AwaitTimer p _ => Some p
  | Settled => hostPort t
  | _ => None
  end.

Definition held (s : state) (id : string) : option Z :=
  match procs s !! id, tasks s !! id with
  | Some k, Some t => held_of k t
  | _, _ => None
  end.

(** An environment in which a bind probe never succeeds on a port held by
    another pipeline.  Nothing in [getFreePort] enforces this. *)
Definition exclusive (e : event) (s : state) : Prop :=
  match e with
  | BindDone id true _ =>
      match procs s !! id with
      | Some (AwaitBind _ p) =>
          map_Forall (fun j _ => j = id \/ held s j <> Some p) (procs s)
      | _ => True
      end
  | _ => True
  end.

Inductive reachable_excl : state -> Prop :=
  | excl_init : reachable_excl init
  | excl_step s e s' :
      reachable_excl s -> exclusive e s -> step e s = Some s' ->
      reachable_excl s'.

(** The effect of one resumption on a pipeline and on its task. *)
Definition failed (msg : string) (t : Task) : Task :=
  with_error msg (with_status Error t).

Definition completed (port : Z) (h : string) (t : Task) : Task :=
  with_hostPort port (with_containerId h (with_status Running t)).

Inductive moves : event -> string -> cont -> Task -> cont -> Task -> Prop :=
  | mv_pulled id rnd t :
      is_unit rnd = true ->
      moves (PullDone id Resolved rnd) id
        AwaitPull t (AwaitBind 0 (candidate rnd)) (with_status Creating t)
  | mv_retry id i p rnd t :
      S i < attempts -> is_unit rnd = true ->
      moves (BindDone id false rnd) id
        (AwaitBind i p) t (AwaitBind (S i) (candidate rnd)) t
  | mv_probed id i p rnd t :
      moves (BindDone id true rnd) id (AwaitBind i p) t (AwaitCreate p) t
  | mv_created id p h t :
      moves (CreateDone id (inl h)) id
        (AwaitCreate p) t (AwaitStart p h) (with_status Starting t)
  | mv_started id p h t :
      moves (StartDone id Resolved) id (AwaitStart p h) t (AwaitTimer p h) t
  | mv_ran id p h t :
      moves (TimerFired id) id (AwaitTimer p h) t Settled (completed p h t)
  | mv_failed e id k t msg :
      subject e = Some id -> throws e k = Some msg ->
      moves e id k t Settled (failed msg t).

Inductive effect (e : event) (s s' : state) : Prop :=
  | eff_none : subject e = None -> s' = s -> effect e s s'
  | eff_new v id ty :
      e = Deploy v id -> includes_type v = Some ty ->
      procs s !! id = None -> tasks s !! id = None ->
      tasks s' = <[id := with_status Pulling (new_task ty)]> (tasks s) ->
      procs s' = <[id := AwaitPull]> (procs s) ->
      effect e s s'
  | eff_move id k t k' t' :
      procs s !! id = Some k -> tasks s !! id = Some t ->
      moves e id k t k' t' ->
      tasks s' = <[id := t']> (tasks s) ->
      procs s' = <[id := k']> (procs s) ->
      effect e s s'.

(** How a task object changes over one turn of the event loop. *)
Definition evolves (t t' : Task) : Prop :=
  t' = t \/ exists e id k k', consistent k t /\ moves e id k t k' t'.

Global Instance exclusive_dec e s : Decision (exclusive e s).
Proof.
  unfold exclusive. destruct e as [| | |id [] rnd| | |]; try apply _.
  destruct (procs s !! id) as [[]|]; apply _.
Defined.

(** Executions of such an environment. *)
Fixpoint run_excl (evs : list event) (s : state) : option state :=
  match evs with
  | [] => Some s
  | e :: rest =>
      if decide (exclusive e s) then
        match step e s with
        | Some s' => run_excl rest s'
        | None => None
        end
      else None
  end.

Definition ports_apart (s : state) : Prop :=
  forall i j p, i <> j -> held s i = Some p -> held s j = Some p -> False.

(** The properties of the specification that the code does not have. *)

Definition ports_distinct (s : state) : Prop :=
  forall i j ti tj,
    i <> j -> tasks s !! i = Some ti -> tasks s !! j = Some tj ->
    status ti = Running -> status tj = Running ->
    hostPort ti <> hostPort tj.

Definition stored_on_create : Prop :=
  forall s id p h t,
    reachable s -> procs s !! id = Some (AwaitStart p h) ->
    tasks s !! id = Some t ->
    containerId t = Some h /\ hostPort t = Some p.

Definition carries_createdAt : Prop :=
  forall s id t,
    reachable s -> tasks s !! id = Some t ->
    is_Some (get_prop "createdAt" (task_json t)).

Definition deploy_task_is_queued : Prop :=
  forall v uuid s t,
    v = JStr "desktop" \/ v = JStr "server" ->
    tasks s !! uuid = None ->
    tasks (fst (deploy v uuid s)) !! uuid = Some t ->
    status t = Queued.

Definition failure_detail_nonempty : Prop :=
  forall s e s' id msg t',
    reachable s -> step e s = Some s' -> raises e s = Some (id, msg) ->
    tasks s' !! id = Some t' ->
    exists m, error t' = Some m /\ m <> "".

(** The property names that [tasks], an object literal, inherits from
    [Object.prototype]: [tasks[id]] is not [undefined] for them. *)
Definition Object_prototype_names : list string :=
  ["constructor"; "__defineGetter__"; "__defineSetter__"; "hasOwnProperty";
   "__lookupGetter__"; "__lookupSetter__"; "isPrototypeOf";
   "propertyIsEnumerable"; "toString"; "valueOf"; "__proto__";
   "toLocaleString"].

(** ** Sample executions *)

Definition rnd0 : double := {| mant := 0; expo := 0 |}.
Definition rnd_half : double := {| mant := 1; expo := 1 |}.
Definition rnd_top : double := {| mant := 2 ^ 53 - 1; expo := 53 |}.

(** One desktop deployed up to the [await] of [docker.createContainer]. *)
Definition trace_creating : list event :=
  [Deploy (JStr "desktop") "t1"; PullDone "t1" Resolved rnd0;
   BindDone "t1" true rnd0].

(** The same deployment up to the [await] of [container.start()]. *)
Definition trace_starting : list event :=
  trace_creating ++ [CreateDone "t1" (inl "c1")].

(** The same deployment carried through to [running]. *)
Definition trace_running : list event :=
  trace_starting ++ [StartDone "t1" Resolved; TimerFired "t1"].

(** A second deployment, after the first has completed, whose probe draws
    the same candidate and finds it bindable. *)
Definition trace_same_port : list event :=
  trace_running ++
  [Deploy (JStr "server") "t2"; PullDone "t2" Resolved rnd0;
   BindDone "t2" true rnd0; CreateDone "t2" (inl "c2");
   StartDone "t2" Resolved; TimerFired "t2"].

(** A second deployment whose probe lands elsewhere. *)
Definition trace_two_ports : list event :=
  trace_running ++
  [Deploy (JStr "server") "t2"; PullDone "t2" Resolved rnd_half;
   BindDone "t2" true rnd0; CreateDone "t2" (inl "c2");
   StartDone "t2" Resolved; TimerFired "t2"].

(** A deployment whose first 99 bind probes have failed. *)
Definition trace_last_probe : list event :=
  [Deploy (JStr "desktop") "t1"; PullDone "t1" Resolved rnd0]
  ++ replicate 99 (BindDone "t1" false rnd_half).

(** A server deployment whose pull fails. *)
Definition trace_pull_failed : list event :=
  [Deploy (JStr "server") "t1";
   PullDone "t1" (Rejected "pull access denied") rnd0].

Definition after (evs : list event) : state :=
  default init (run evs init).

(** ** JavaScript operations used by the handlers and the clients *)

(** [String(n)] and the [n] of a template literal or a [+] with a string,
    for an integer [n] of magnitude below [10^21]. *)
Definition dec (n : Z) : string := NilZero.string_of_int (Z.to_int n).

(** Reading a decimal port number back, as the container runtime does. *)
Definition parse_dec (s : string) : option Z :=
  option_map Z.of_int (NilZero.int_of_string s).

(** An [Error] object: its [name] and its [message]. *)
Record js_error := { ename : string; emessage : string }.

(** [Error.prototype.toString] *)
Definition error_toString (e : js_error) : string :=
  if String.eqb (ename e) "" then emessage e
  else if String.eqb (emessage e) "" then ename e
  else ename e +:+ ": " +:+ emessage e.

Definition cannot_read (what key : string) : js_error :=
  {| ename := "TypeError";
     emessage := "Cannot read properties of " +:+ what
                 +:+ " (reading '" +:+ key +:+ "')" |}.

(** [v.k] and [v[k]] for a property name [k] that is not an array index
    and not a name found on a prototype ([length], [constructor], ...). *)
Definition member (v : jsval) (k : string) : jsval + js_error :=
  match v with
  | JUndefined => inr (cannot_read "undefined" k)
  | JNull => inr (cannot_read "null" k)
  | JObj props => inl (default JUndefined (assoc k props))
  | _ => inl JUndefined
  end.

(** [v[0]] *)
Definition index0 (v : jsval) : jsval + js_error :=
  match v with
  | JUndefined => inr (cannot_read "undefined" "0")
  | JNull => inr (cannot_read "null" "0")
  | JArr items => inl (default JUndefined (head items))
  | JStr (String c _) => inl (JStr (String c ""))
  | JObj props => inl (default JUndefined (assoc "0" props))
  | _ => inl JUndefined
  end.

(** Truthiness, as tested by [if (v)] and [v && ...]. *)
Definition truthy (v : jsval) : bool :=
  match v with
  | JUndefined | JNull => false
  | JBool b => b
  | JNum n => negb (n =? 0)%Z
  | JStr s => negb (String.eqb s "")
  | JArr _ | JObj _ => true
  end.

(** [v === 'literal'] *)
Definition is_str (v : jsval) (s : string) : bool :=
  match v with
  | JStr s' => String.eqb s' s
  | _ => false
  end.

(** [ToString], as applied by string concatenation and template literals. *)
Fixpoint to_str (v : jsval) : string :=
  match v with
  | JUndefined => "undefined"
  | JNull => "null"
  | JBool true => "true"
  | JBool false => "false"
  | JNum n => dec n
  | JStr s => s
  | JArr items =>
      (fix join (l : list jsval) : string :=
         match l with
         | [] => ""
         | x :: rest =>
             let here :=
               match x with
               | JUndefined | JNull => ""
               | _ => to_str x
               end in
             match rest with
             | [] => here
             | _ => here +:+ "," +:+ join rest
             end
         end) items
  | JObj _ => "[object Object]"
  end.

(** A property of an object literal passed to [res.json]: a property whose
    value is [undefined] is left out by [JSON.stringify]. *)
Definition json_prop (k : string) (v : jsval) : list (string * jsval) :=
  match v with
  | JUndefined => []
  | _ => [(k, v)]
  end.

(** ** [backend/index.js]: what the pipeline asks of the runtime *)

(** [type === 'desktop' ? 'dorowu/ubuntu-desktop-lxde-vnc:latest' : 'ubuntu:24.04'] *)
Definition image_of (ty : string) : string :=
  if String.eqb ty "desktop" then "dorowu/ubuntu-desktop-lxde-vnc:latest"
  else "ubuntu:24.04".

Record createOptions := {
  Image : string;
  name : string;
  Cmd : option (list string);
  ExposedPorts : list string;
  PortBindings : list (string * list string);
  AutoRemove : bool
}.

Definition server_cmd : list string :=
  ["/bin/bash"; "-lc";
   "apt update && apt install -y curl openssh-server && mkdir /var/run/sshd && echo 'root:ubuntu' | chpasswd && sed -i 's/PermitRootLogin prohibit-password/PermitRootLogin yes/' /etc/ssh/sshd_config && service ssh start && tail -f /dev/null"].

(** The [createOptions] built between [getFreePort] and
    [docker.createContainer]. *)
Definition make_createOptions (ty id : string) (port : Z) : createOptions :=
  if String.eqb ty "desktop" then
    {| Image := image_of ty;
       name := "ubuntu_desktop_" +:+ id;
       Cmd := None;
       ExposedPorts := ["6080/tcp"];
       PortBindings := [("6080/tcp", [dec port])];
       AutoRemove := false |}
  else
    {| Image := image_of ty;
       name := "ubuntu_server_" +:+ id;
       Cmd := Some server_cmd;
       ExposedPorts := ["22/tcp"];
       PortBindings := [("22/tcp", [dec port])];
       AutoRemove := false |}.

(** ** [frontend/src/App.jsx]: the client of [backend/index.js] *)

(** [if (j.id)] in [deploy]: whether the client starts to poll. *)
Definition starts_polling (j : jsval) : bool :=
  match member j "id" with
  | inl v => truthy v
  | inr _ => false
  end.

(** [j && (j.status === 'running' || j.status === 'error')] in
    [pollStatus]: whether the client clears its interval. *)
Definition poll_stops (j : jsval) : bool :=
  truthy j &&
  match member j "status" with
  | inl st => is_str st "running" || is_str st "error"
  | inr _ => false
  end.

(** [getAccessUrl(status)], with [host = window.location.hostname]. *)
Definition getAccessUrl (host : string) (st : jsval) : string + js_error :=
  match member st "hostPort" with
  | inr e => inr e
  | inl port =>
      match member st "type" with
      | inr e => inr e
      | inl ty =>
          if is_str ty "desktop"
          then inl ("http://" +:+ host +:+ ":" +:+ to_str port)
          else inl ("ssh://root@" +:+ host +:+ ":" +:+ to_str port)
      end
  end.

(** ** [server.js]: the synchronous [POST /create] *)

Record create_request := {
  cr_Image : string;
  cr_Tty : bool;
  cr_ExposedPorts : list string;
  cr_PortBindings : list (string * list string)
}.

Inductive docker_call :=
  | DockerCreate (req : create_request)
  | DockerStart
  | DockerInspect.

(** [type==="desktop" ? "dorowu/ubuntu-desktop-lxde-vnc" : "ubuntu:22.04"] *)
Definition create_image (ty : jsval) : string :=
  if is_str ty "desktop" then "dorowu/ubuntu-desktop-lxde-vnc"
  else "ubuntu:22.04".

(** [type==="desktop" ? 6080 : 22] *)
Definition create_port (ty : jsval) : Z :=
  if is_str ty "desktop" then 6080%Z else 22%Z.

(** [port+"/tcp"] *)
Definition port_key (ty : jsval) : string := dec (create_port ty) +:+ "/tcp".

Definition create_req (ty : jsval) : create_request :=
  {| cr_Image := create_image ty;
     cr_Tty := true;
     cr_ExposedPorts := [port_key ty];
     cr_PortBindings := [(port_key ty, ["0"])] |}.

(** [data.NetworkSettings.Ports[port+"/tcp"][0].HostPort] *)
Definition read_host_port (data : jsval) (key : string) : jsval + js_error :=
  match member data "NetworkSettings" with
  | inr e => inr e
  | inl ns =>
      match member ns "Ports" with
      | inr e => inr e
      | inl ports =>
          match member ports key with
          | inr e => inr e
          | inl bindings =>
              match index0 bindings with
              | inr e => inr e
              | inl first => member first "HostPort"
              end
          end
      end
  end.

Definition create_failed (e : js_error) : response :=
  {| code := 200;
     body := JObj [("ok", JBool false); ("error", JStr (error_toString e))] |}.

Definition create_ok (hostPort : jsval) : response :=
  {| code := 200;
     body := JObj (("ok", JBool true) :: json_prop "port" hostPort) |}.

(** The handler, for [ty = req.body.type], against the outcomes of the
    three runtime calls it awaits, each an [Error] or a result: the calls
    it makes, in order, and its response. *)
Definition create (ty : jsval)
    (r_create r_start : unit + js_error) (r_inspect : jsval + js_error)
  : list docker_call * response :=
  match r_create with
  | inr e => ([DockerCreate (create_req ty)], create_failed e)
  | inl _ =>
      match r_start with
      | inr e => ([DockerCreate (create_req ty); DockerStart], create_failed e)
      | inl _ =>
          let calls :=
            [DockerCreate (create_req ty); DockerStart; DockerInspect] in
          match r_inspect with
          | inr e => (calls, create_failed e)
          | inl data =>
              match read_host_port data (port_key ty) with
              | inr e => (calls, create_failed e)
              | inl hostPort => (calls, create_ok hostPort)
              end
          end
      end
  end.

(** ** [frontend/src/index.js]: the client of [server.js] *)

(** [if(d.ok) setLink("http://YOUR-IP:"+d.port)]: the link shown after the
    response [d] has arrived.  A [TypeError] on [d.ok] rejects the promise
    of [create] before [setLink]. *)
Definition on_created (d : jsval) (link : string) : string :=
  match member d "ok" with
  | inr _ => link
  | inl ok =>
      if truthy ok then
        match member d "port" with
        | inr _ => link
        | inl port => "http://YOUR-IP:" +:+ to_str port
        end
      else link
  end.

(** A click on one of the two buttons, end to end. *)
Definition click (t : string)
    (r_create r_start : unit + js_error) (r_inspect : jsval + js_error)
    (link : string) : string :=
  on_created (body (snd (create (JStr t) r_create r_start r_inspect))) link.

(** ** Counting resumptions *)

(** The resumptions a pipeline suspended at [k] can still receive: the
    pull, the probes left, the create, the start and the timer. *)
Definition budget (k : cont) : nat :=
  match k with
  | AwaitPull => 104
  | AwaitBind i _ => 103 - i
  | AwaitCreate _ => 3
  | AwaitStart _ _ => 2
  | AwaitTimer _ _ => 1
  | Settled | Unhandled => 0
  end.

Definition budget_at (s : state) (id : string) : nat :=
  match procs s !! id with
  | Some k => budget k
  | None => 104
  end.

Definition resumes (id : string) (e : event) : bool :=
  bool_decide (subject e = Some id).

Definition deliveries (id : string) (evs : list event) : nat :=
  length (filter (fun e => resumes id e = true) evs).

(** The ids that the deploy requests of an execution were answered with. *)
Definition handed_out (e : event) : list string :=
  match e with
  | Deploy v uuid =>
      match includes_type v with
      | Some _ => [uuid]
      | None => []
      end
  | _ => []
  end.

(** What the environment may deliver at all. *)
Definition deliverable (e : event) : Prop :=
  match e with
  | PullDone _ _ rnd | BindDone _ _ rnd => is_unit rnd = true
  | _ => True
  end.

(** ** Arithmetic of the port candidate *)

Section Rounding.
Local Open Scope Z_scope.

Lemma round53_nonneg m : 0 <= m -> 0 <= round53 m.
Proof.
  intros Hm. unfold round53.
  destruct (Z.log2 m - 52 <=? 0) eqn:Hsh; [exact Hm|].
  apply Z.leb_gt in Hsh.
  assert (0 < 2 ^ (Z.log2 m - 52)) by (apply Z.pow_pos_nonneg; lia).
  assert (0 <= m / 2 ^ (Z.log2 m - 52)) by (apply Z.div_pos; lia).
  destruct ((_ <? _) || _); nia.
Qed.

(** Rounding moves a number below [2^67] by at most half a unit in the
    last place, and that is at most [2^13]. *)
Lemma round53_upper m : 0 <= m < 2 ^ 67 -> round53 m <= m + 8192.
Proof.
  intros [Hm Hlt]. unfold round53.
  destruct (Z.log2 m - 52 <=? 0) eqn:Hsh; [lia|].
  apply Z.leb_gt in Hsh.
  set (sh := Z.log2 m - 52) in *.
  assert (Hlog : Z.log2 m < 67).
  { destruct (Z.eq_dec m 0) as [->|]; [simpl; lia|].
    apply Z.log2_lt_pow2; lia. }
  assert (Hhalf : 2 ^ (sh - 1) <= 2 ^ 13)
    by (apply Z.pow_le_mono_r; lia).
  assert (Hdouble : 2 ^ sh = 2 * 2 ^ (sh - 1)).
  { replace sh with (Z.succ (sh - 1)) at 1 by lia.
    rewrite Z.pow_succ_r by lia. reflexivity. }
  assert (Hpos : 0 < 2 ^ (sh - 1)) by (apply Z.pow_pos_nonneg; lia).
  pose proof (Z.div_mod m (2 ^ sh) ltac:(lia)) as Hdm.
  pose proof (Z.mod_pos_bound m (2 ^ sh) ltac:(lia)) as Hr.
  change (2 ^ 13) with 8192 in Hhalf.
  destruct (2 ^ (sh - 1) <? m mod 2 ^ sh) eqn:Hgt; simpl.
  - apply Z.ltb_lt in Hgt. nia.
  - destruct (m mod 2 ^ sh =? 2 ^ (sh - 1)) eqn:Heq; simpl.
    + apply Z.eqb_eq in Heq. destruct (Z.odd _); nia.
    + nia.
Qed.

Lemma is_unit_spec d :
  is_unit d = true ->
  0 <= mant d < 2 ^ 53 /\ 0 <= expo d <= 1074 /\ mant d < 2 ^ expo d.
Proof.
  unfold is_unit. rewrite !andb_true_iff.
  rewrite !Z.leb_le, !Z.ltb_lt. lia.
Qed.

(** Every candidate lies in [[min, max)]: the rounded product stays
    strictly below [max - min]. *)
Lemma candidate_range d :
  is_unit d = true -> port_min <= candidate d < port_max.
Proof.
  intros Hd. apply is_unit_spec in Hd as ([Hm0 Hm53] & [He0 _] & Hme).
  unfold candidate, floor_mul, port_min, port_max.
  change (40000 - 30000) with 10000.
  assert (Hpow : 0 < 2 ^ expo d) by (apply Z.pow_pos_nonneg; lia).
  assert (H53 : 2 ^ 53 * 10000 < 2 ^ 67) by reflexivity.
  assert (Hup := round53_upper (mant d * 10000) ltac:(nia)).
  assert (Hlo := round53_nonneg (mant d * 10000) ltac:(nia)).
  assert (0 <= round53 (mant d * 10000) / 2 ^ expo d)
    by (apply Z.div_pos; lia).
  assert (round53 (mant d * 10000) / 2 ^ expo d < 10000)
    by (apply Z.div_lt_upper_bound; nia).
  lia.
Qed.
End Rounding.

(** ** The segments, statement by statement *)

Section Segments.
Context (σ : gmap string Task) (id : string) (t : Task).
Hypothesis Hid : σ !! id = Some t.

Lemma update_some f : update id f σ = (inl tt, <[id := f t]> σ).
Proof. unfold update. by rewrite Hid. Qed.

Lemma catch_block_some msg :
  catch_block id msg σ = (inl Settled, <[id := failed msg t]> σ).
Proof.
  unfold catch_block, bind, update, ret. rewrite Hid.
  rewrite lookup_insert_eq, insert_insert_eq. reflexivity.
Qed.

Lemma try_catch_throw msg :
  try_catch id (throw msg) σ = (Settled, <[id := failed msg t]> σ).
Proof. unfold try_catch, throw. by rewrite catch_block_some. Qed.

Lemma try_catch_ret k : try_catch id (ret k) σ = (k, σ).
Proof. reflexivity. Qed.

Lemma try_catch_update f k :
  try_catch id (update id f ;;; ret k) σ = (k, <[id := f t]> σ).
Proof. unfold try_catch, bind. by rewrite update_some. Qed.

Lemma try_catch_timer port h :
  try_catch id (seg_timer id port h) σ
  = (Settled, <[id := completed port h t]> σ).
Proof.
  unfold try_catch, seg_timer, bind, update, ret. rewrite Hid.
  rewrite !lookup_insert_eq, !insert_insert_eq. reflexivity.
Qed.
End Segments.

(** ** One turn of the event loop *)

Lemma inv_lookup s id k :
  inv s -> procs s !! id = Some k ->
  exists t, tasks s !! id = Some t /\ consistent k t.
Proof.
  intros Hinv Hk. specialize (Hinv id). rewrite Hk in Hinv.
  destruct (tasks s !! id) as [t|]; [eauto | contradiction].
Qed.

Lemma inv_fresh s id : inv s -> tasks s !! id = None -> procs s !! id = None.
Proof.
  intros Hinv Ht. specialize (Hinv id). rewrite Ht in Hinv.
  destruct (procs s !! id); [contradiction | reflexivity].
Qed.

Lemma step_effect s e s' : inv s -> step e s = Some s' -> effect e s s'.
Proof.
  intros Hinv Hstep.
  destruct e as [v uuid|id|id r rnd|id l rnd|id r|id r|id]; simpl in Hstep.
  - unfold deploy in Hstep.
    destruct (includes_type v) as [ty|] eqn:Hty.
    + destruct (tasks s !! uuid) eqn:Ht; [discriminate|].
      injection Hstep as <-. simpl.
      apply eff_new with v uuid ty; auto using inv_fresh;
        unfold resume, seg_launch, createTask; simpl;
        erewrite try_catch_update by apply lookup_insert_eq; simpl;
        [by rewrite insert_insert_eq | reflexivity].
    + apply eff_none; [done|].
      by destruct (tasks s !! uuid); injection Hstep as <-.
  - apply eff_none; [done | congruence].
  - destruct (procs s !! id) as [[]|] eqn:Hk; try discriminate.
    destruct (is_unit rnd) eqn:Hrnd; [|discriminate].
    injection Hstep as <-.
    destruct (inv_lookup _ _ _ Hinv Hk) as (t & Ht & _).
    unfold resume, seg_pulled. destruct r as [|msg].
    + erewrite try_catch_update by eassumption.
      eapply eff_move; eauto. by constructor.
    + erewrite try_catch_throw by eassumption.
      eapply eff_move; eauto. by constructor.
  - destruct (procs s !! id) as [[| i p | | | | |]|] eqn:Hk; try discriminate.
    destruct (is_unit rnd) eqn:Hrnd; [|discriminate].
    injection Hstep as <-.
    destruct (inv_lookup _ _ _ Hinv Hk) as (t & Ht & _).
    unfold resume, seg_probed.
    destruct (after_bind i p l rnd) as [q|i' p'|msg] eqn:Hab.
    + unfold after_bind in Hab. destruct l.
      * injection Hab as <-. rewrite try_catch_ret.
        eapply eff_move; eauto; [constructor|]. simpl. by rewrite insert_id.
      * by destruct (S i <? attempts).
    + unfold after_bind in Hab. destruct l; [discriminate|].
      destruct (S i <? attempts) eqn:Hi; [|discriminate].
      injection Hab as <- <-. rewrite try_catch_ret.
      eapply eff_move; eauto; [|simpl; by rewrite insert_id].
      constructor; [by apply Nat.ltb_lt | done].
    + erewrite try_catch_throw by eassumption.
      eapply eff_move; eauto. constructor; [done|]. simpl. by rewrite Hab.
  - destruct (procs s !! id) as [[| | port | | | |]|] eqn:Hk; try discriminate.
    injection Hstep as <-.
    destruct (inv_lookup _ _ _ Hinv Hk) as (t & Ht & _).
    unfold resume, seg_created. destruct r as [h|msg].
    + erewrite try_catch_update by eassumption.
      eapply eff_move; eauto. constructor.
    + erewrite try_catch_throw by eassumption.
      eapply eff_move; eauto. by constructor.
  - destruct (procs s !! id) as [[| | | port h | | |]|] eqn:Hk;
      try discriminate.
    injection Hstep as <-.
    destruct (inv_lookup _ _ _ Hinv Hk) as (t & Ht & _).
    unfold resume, seg_started. destruct r as [|msg].
    + rewrite try_catch_ret.
      eapply eff_move; eauto; [constructor|]. simpl. by rewrite insert_id.
    + erewrite try_catch_throw by eassumption.
      eapply eff_move; eauto. by constructor.
  - destruct (procs s !! id) as [[| | | | port h | |]|] eqn:Hk;
      try discriminate.
    injection Hstep as <-.
    destruct (inv_lookup _ _ _ Hinv Hk) as (t & Ht & _).
    unfold resume. erewrite try_catch_timer by eassumption.
    eapply eff_move; eauto. constructor.
Qed.

(** ** The invariant *)

(** Only a pipeline waiting for the runtime or for a probe can throw. *)
Lemma throws_bare e k t msg :
  throws e k = Some msg -> consistent k t ->
  bare t /\ terminal (status t) = false.
Proof.
  intros Hth Hc.
  destruct e as [| |? []| | ? []|? []|], k; simpl in *; try discriminate;
    unfold bare in *; destruct Hc as (-> & Hc); tauto.
Qed.

Lemma moves_consistent e id k t k' t' :
  consistent k t -> moves e id k t k' t' -> consistent k' t'.
Proof.
  intros Hc Hm.
  destruct Hm as [id rnd t Hu|id i p rnd t Hi Hu| | | | |]; simpl in *.
  - assert (in_range (candidate rnd)) by (by apply candidate_range).
    unfold bare, attempts in *. simpl. intuition (auto; try lia).
  - assert (in_range (candidate rnd)) by (by apply candidate_range).
    intuition auto.
  - intuition auto.
  - unfold bare in *. simpl. intuition auto.
  - exact Hc.
  - unfold bare in *. left. intuition eauto.
  - right. destruct (throws_bare _ _ _ _ ltac:(eassumption) Hc) as [Hb _].
    unfold bare in Hb. intuition eauto.
Qed.

Lemma effect_inv e s s' : inv s -> effect e s s' -> inv s'.
Proof.
  intros Hinv [_ ->|v id ty _ _ Hp Ht Hts Hps|id k t k' t' Hk Ht Hm Hts Hps];
    auto.
  - intros j. rewrite Hts, Hps. destruct (decide (j = id)) as [->|Hne].
    + rewrite !lookup_insert_eq. simpl. unfold bare. auto.
    + rewrite !lookup_insert_ne by done. apply Hinv.
  - intros j. rewrite Hts, Hps. destruct (decide (j = id)) as [->|Hne].
    + rewrite !lookup_insert_eq.
      destruct (inv_lookup _ _ _ Hinv Hk) as (t0 & Ht0 & Hc).
      rewrite Ht in Ht0. injection Ht0 as <-.
      eauto using moves_consistent.
    + rewrite !lookup_insert_ne by done. apply Hinv.
Qed.

Lemma inv_init : inv init.
Proof. intros id. unfold init; simpl. by rewrite !lookup_empty. Qed.

Lemma reachable_inv s : reachable s -> inv s.
Proof.
  induction 1 as [|s e s' _ IH Hstep]; [apply inv_init|].
  eauto using effect_inv, step_effect.
Qed.

Lemma run_reachable evs s s' :
  reachable s -> run evs s = Some s' -> reachable s'.
Proof.
  revert s. induction evs as [|e evs IH]; simpl; intros s Hs Hrun.
  - by injection Hrun as <-.
  - destruct (step e s) as [s1|] eqn:Hstep; [|discriminate].
    eauto using reach_step.
Qed.

Lemma after_reachable evs : is_Some (run evs init) -> reachable (after evs).
Proof.
  intros [s Hs]. unfold after. rewrite Hs. simpl.
  eauto using run_reachable, reach_init.
Qed.

(** ** What one turn does to one task *)

Lemma effect_task e s s' j t :
  inv s -> effect e s s' -> tasks s !! j = Some t ->
  exists t', tasks s' !! j = Some t' /\ evolves t t'.
Proof.
  intros Hinv
    [_ ->|v id ty _ _ Hp Ht Hts Hps|id k t0 k' t' Hk Ht Hm Hts Hps] Hj.
  - exists t. split; [done | by left].
  - exists t. rewrite Hts. split; [|by left].
    rewrite lookup_insert_ne; [done | congruence].
  - rewrite Hts. destruct (decide (j = id)) as [->|Hne].
    + rewrite lookup_insert_eq. exists t'. split; [done|]. right.
      destruct (inv_lookup _ _ _ Hinv Hk) as (t1 & Ht1 & Hc).
      assert (t1 = t) by congruence. assert (t0 = t) by congruence.
      subst. eauto 6.
    + rewrite lookup_insert_ne by done. exists t. split; [done | by left].
Qed.

Lemma evolves_type t t' : evolves t t' -> type t' = type t.
Proof. intros [->|(e & id & k & k' & _ & Hm)]; [done|]. by destruct Hm. Qed.

Lemma evolves_status t t' :
  evolves t t' -> status t' = status t \/ transition (status t) (status t').
Proof.
  intros [->|(e & id & k & k' & Hc & Hm)]; [by left|].
  destruct Hm; simpl in *; auto.
  - right. destruct Hc as (-> & _). constructor.
  - right. destruct Hc as (-> & _). constructor.
  - right. destruct Hc as (-> & _). constructor.
  - right. constructor. eapply throws_bare; eauto.
Qed.

Lemma evolves_terminal t t' :
  evolves t t' -> terminal (status t) = true -> t' = t.
Proof.
  intros [->|(e & id & k & k' & Hc & Hm)] Hterm; [done|].
  assert (terminal (status t) = false); [|congruence].
  destruct Hm; simpl in *; try (by destruct Hc as (-> & _)).
  eapply throws_bare; eauto.
Qed.

Lemma evolves_fields t t' :
  evolves t t' ->
  (forall h, containerId t = Some h -> containerId t' = Some h) /\
  (forall p, hostPort t = Some p -> hostPort t' = Some p).
Proof.
  intros [->|(e & id & k & k' & Hc & Hm)]; [done|].
  assert (Hb : bare t).
  { destruct Hm; simpl in *; try tauto. eapply throws_bare; eauto. }
  destruct Hb as (Hcid & Hport & _). rewrite Hcid, Hport. done.
Qed.

Lemma transition_rank a b : transition a b -> rank a < rank b.
Proof. destruct 1 as [| | | |[]]; simpl in *; (lia || discriminate). Qed.

Lemma run_task s evs s' j t :
  reachable s -> run evs s = Some s' -> tasks s !! j = Some t ->
  exists t', tasks s' !! j = Some t' /\ rtc evolves t t'.
Proof.
  revert s t. induction evs as [|e evs IH]; simpl; intros s t Hs Hrun Hj.
  - injection Hrun as <-. exists t. split; [done | apply rtc_refl].
  - destruct (step e s) as [s1|] eqn:Hstep; [|discriminate].
    pose proof (reachable_inv _ Hs) as Hinv.
    destruct (effect_task _ _ _ _ _ Hinv (step_effect _ _ _ Hinv Hstep) Hj)
      as (t1 & Hj1 & Hev).
    destruct (IH s1 t1) as (t' & Hj' & Hrtc); eauto using reach_step.
    exists t'. split; [done | by eapply rtc_l].
Qed.

Lemma rtc_evolves_status t t' :
  rtc evolves t t' ->
  rtc transition (status t) (status t') /\
  rank (status t) <= rank (status t') /\
  (terminal (status t) = true -> t' = t).
Proof.
  induction 1 as [t|t t1 t' Hev _ (IHrtc & IHrank & IHterm)].
  - split; [apply rtc_refl | split; [lia | done]].
  - split; [|split].
    + destruct (evolves_status _ _ Hev) as [Heq|Htr].
      * by rewrite <- Heq.
      * by eapply rtc_l.
    + destruct (evolves_status _ _ Hev) as [Heq|Htr].
      * by rewrite <- Heq.
      * apply transition_rank in Htr. lia.
    + intros Hterm. pose proof (evolves_terminal _ _ Hev Hterm) as ->. auto.
Qed.

Lemma rtc_evolves_fields t t' :
  rtc evolves t t' ->
  type t' = type t /\
  (forall h, containerId t = Some h -> containerId t' = Some h) /\
  (forall p, hostPort t = Some p -> hostPort t' = Some p).
Proof.
  induction 1 as [t|t t1 t' Hev _ (IHty & IHc & IHp)]; [done|].
  destruct (evolves_fields _ _ Hev) as [Hc Hp].
  rewrite IHty, (evolves_type _ _ Hev). auto.
Qed.

(** ** The status diagram *)

(** C1: along any execution from a reachable state, the status of a task
    moves only along the edges Queued -> Pulling -> Creating -> Starting ->
    Running, or from a non-terminal status to Error; its position in the
    pipeline order never decreases; a task that is Running or Error keeps
    its status. *)
Theorem status_moves_forward s evs s' id t :
  reachable s -> run evs s = Some s' -> tasks s !! id = Some t ->
  exists t',
    tasks s' !! id = Some t' /\
    rtc transition (status t) (status t') /\
    rank (status t) <= rank (status t') /\
    (terminal (status t) = true -> status t' = status t).
Proof.
  intros Hs Hrun Hid.
  destruct (run_task _ _ _ _ _ Hs Hrun Hid) as (t' & Hid' & Hrtc).
  destruct (rtc_evolves_status _ _ Hrtc) as (Htr & Hrank & Hterm).
  exists t'. repeat split; auto. intros Ht. by rewrite Hterm.
Qed.

Lemma status_moves_forward_witness :
  exists t',
    tasks (after trace_running) !! "t1" = Some t' /\
    rtc transition Starting (status t') /\
    rank Starting <= rank (status t') /\
    (terminal Starting = true -> status t' = Starting).
Proof.
  apply (status_moves_forward (after trace_starting)
           [StartDone "t1" Resolved; TimerFired "t1"] (after trace_running)
           "t1" (with_status Starting (with_status Creating
                   (with_status Pulling (new_task "desktop"))))).
  - apply after_reachable. eexists. vm_compute. reflexivity.
  - vm_compute. reflexivity.
  - vm_compute. reflexivity.
Defined.

(** ** The deploy handler *)

Lemma includes_type_valid v :
  v = JStr "desktop" \/ v = JStr "server" ->
  exists ty, v = JStr ty /\ includes_type v = Some ty.
Proof. intros [->| ->]; eauto. Qed.

Lemma includes_type_invalid v :
  v <> JStr "desktop" -> v <> JStr "server" -> includes_type v = None.
Proof.
  intros Hd Hs. destruct v as [| | | |ty| |]; simpl; try reflexivity.
  destruct (String.eqb_spec ty "desktop") as [->|_]; [done|].
  destruct (String.eqb_spec ty "server") as [->|_]; [done|].
  reflexivity.
Qed.

(** C2, as the specification states it, fails: even under an id that is
    not in the store, the task that a deploy request leaves behind is not
    Queued.  The first segment of the pipeline runs inside the handler and
    has set its status to Pulling before the response is sent. *)
Lemma deploy_task_not_queued : ~ deploy_task_is_queued.
Proof.
  intros Hclaim.
  assert (H : status (with_status Pulling (new_task "desktop")) = Queued);
    [|discriminate].
  apply (Hclaim (JStr "desktop") "t1" init).
  - by left.
  - reflexivity.
  - vm_compute. reflexivity.
Qed.

(** C2, amended: a deploy request with type desktop or server stores one
    task under the id that [uuidv4] returned and answers 200 with exactly
    [{ id }].  The task object is created as Queued, and is already
    Pulling, with nothing else set, when the handler returns; the pipeline
    is suspended at the [await] of the pull, and the handler consumes no
    result of the pull, the probe, the create, the start or the timer.  No
    other task is touched.  The task is a new one, the store growing by
    exactly that id, when the id was not in the store; the handler does not
    check this: on an id that is already a key it replaces the task stored
    there (an event the environment never delivers, [uuidv4] returning no
    id twice). *)
Theorem deploy_creates_task v uuid s :
  v = JStr "desktop" \/ v = JStr "server" ->
  exists ty s',
    v = JStr ty /\
    deploy v uuid s
    = (s', {| code := 200; body := JObj [("id", JStr uuid)] |}) /\
    get_prop "id" (body (snd (deploy v uuid s))) = Some (JStr uuid) /\
    createTask uuid ty (tasks s) !! uuid = Some (new_task ty) /\
    status (new_task ty) = Queued /\
    tasks s' = <[uuid := with_status Pulling (new_task ty)]> (tasks s) /\
    tasks s' !! uuid
    = Some {| status := Pulling; type := ty; containerId := None;
              hostPort := None; error := None |} /\
    procs s' !! uuid = Some AwaitPull /\
    (forall j, j <> uuid -> tasks s' !! j = tasks s !! j) /\
    (tasks s !! uuid = None ->
     step (Deploy v uuid) s = Some s' /\
     dom (tasks s') = {[uuid]} ∪ dom (tasks s) /\
     size (tasks s') = S (size (tasks s))) /\
    (is_Some (tasks s !! uuid) ->
     step (Deploy v uuid) s = None /\
     dom (tasks s') = dom (tasks s) /\
     size (tasks s') = size (tasks s)).
Proof.
  intros Hv.
  destruct (includes_type_valid v Hv) as (ty & -> & Hty).
  assert (Hdeploy :
    deploy (JStr ty) uuid s
    = ({| tasks := <[uuid := with_status Pulling (new_task ty)]> (tasks s);
          procs := <[uuid := AwaitPull]> (procs s) |}, accepted uuid)).
  { unfold deploy. rewrite Hty. unfold resume, seg_launch, createTask; simpl.
    erewrite try_catch_update by apply lookup_insert_eq.
    by rewrite insert_insert_eq. }
  eexists ty, _. split; [reflexivity|]. split; [exact Hdeploy|].
  rewrite Hdeploy. cbn [snd tasks procs].
  split; [reflexivity|]. split; [apply lookup_insert_eq|].
  split; [reflexivity|]. split; [reflexivity|].
  split; [apply lookup_insert_eq|]. split; [apply lookup_insert_eq|].
  split; [intros j Hj; by rewrite lookup_insert_ne|]. split.
  - intros Hfresh. split; [|split].
    + unfold step. rewrite Hty, Hfresh, Hdeploy. reflexivity.
    + apply dom_insert_L.
    + by apply map_size_insert_None.
  - intros Hold. split; [|split].
    + unfold step. rewrite Hty. by destruct Hold as [t ->].
    + rewrite dom_insert_L. apply elem_of_dom in Hold.
      apply set_eq. intros j. rewrite elem_of_union, elem_of_singleton.
      split; [intros [->|?]; assumption | by right].
    + by apply map_size_insert_Some.
Qed.

Lemma deploy_creates_task_witness :
  exists ty s',
    JStr "server" = JStr ty /\
    deploy (JStr "server") "t2" (after trace_running)
    = (s', {| code := 200; body := JObj [("id", JStr "t2")] |}) /\
    tasks s' !! "t2"
    = Some {| status := Pulling; type := ty; containerId := None;
              hostPort := None; error := None |} /\
    procs s' !! "t2" = Some AwaitPull /\
    step (Deploy (JStr "server") "t2") (after trace_running) = Some s' /\
    size (tasks s') = S (size (tasks (after trace_running))).
Proof.
  destruct (deploy_creates_task (JStr "server") "t2" (after trace_running))
    as (ty & s' & Hty & Hdeploy & _ & _ & _ & _ & Htask & Hproc & _ & Hnew & _).
  - right. reflexivity.
  - destruct Hnew as (Hstep & _ & Hsize); [vm_compute; reflexivity|].
    exists ty, s'. auto 10.
Defined.

(** C7: a deploy request whose type is neither desktop nor server is
    answered at once with the 400 validation error; the store and the set
    of pipelines are unchanged. *)
Theorem deploy_rejects_bad_type v uuid s :
  v <> JStr "desktop" -> v <> JStr "server" ->
  deploy v uuid s = (s, bad_type) /\
  step (Deploy v uuid) s = Some s /\
  code bad_type = 400%Z /\
  get_prop "id" (body bad_type) = None.
Proof.
  intros Hd Hs. pose proof (includes_type_invalid v Hd Hs) as Hty.
  assert (Hdeploy : deploy v uuid s = (s, bad_type))
    by (unfold deploy; by rewrite Hty).
  repeat split; auto. unfold step. rewrite Hty, Hdeploy. reflexivity.
Qed.

Lemma deploy_rejects_bad_type_witness :
  deploy (JStr "laptop") "t9" (after trace_running)
    = (after trace_running, bad_type) /\
  step (Deploy (JStr "laptop") "t9") (after trace_running)
    = Some (after trace_running) /\
  code bad_type = 400%Z /\
  get_prop "id" (body bad_type) = None.
Proof.
  apply (deploy_rejects_bad_type (JStr "laptop") "t9" (after trace_running));
    discriminate.
Defined.

(** ** The port allocator *)

Lemma getFreePort_from_spec n i rnd bind :
  (forall j, is_unit (rnd j) = true) ->
  (exists j p,
      i <= j < i + n /\ getFreePort_from n i rnd bind = inl p /\
      p = candidate (rnd j) /\ bind j p = true /\ in_range p /\
      forall j', i <= j' < j -> bind j' (candidate (rnd j')) = false)
  \/ (getFreePort_from n i rnd bind = inr no_free_ports /\
      forall j, i <= j < i + n -> bind j (candidate (rnd j)) = false).
Proof.
  intros Hrnd. revert i. induction n as [|n IH]; intros i; simpl.
  - right. split; [reflexivity | intros j Hj; lia].
  - destruct (bind i (candidate (rnd i))) eqn:Hb.
    + left. exists i, (candidate (rnd i)).
      repeat split; auto; try lia; try (apply candidate_range, Hrnd).
    + destruct (IH (S i)) as [(j & p & Hj & Hres & Hp & Hbp & Hr & Hbefore)
                             |(Hres & Hall)].
      * left. exists j, p. repeat split; auto; try lia; try apply Hr.
        intros j' Hj'. destruct (decide (j' = i)) as [->|]; [done|].
        apply Hbefore. lia.
      * right. split; [done|]. intros j Hj.
        destruct (decide (j = i)) as [->|]; [done|]. apply Hall. lia.
Qed.

(** The loop of [getFreePort] and the resumption [after_bind] of the state
    machine are the same code. *)
Lemma getFreePort_from_after_bind i rnd bind :
  i < attempts ->
  getFreePort_from (attempts - i) i rnd bind
  = match after_bind i (candidate (rnd i))
            (bind i (candidate (rnd i))) (rnd (S i)) with
    | Return q => inl q
    | Retry i' _ => getFreePort_from (attempts - i') i' rnd bind
    | Throw msg => inr msg
    end.
Proof.
  intros Hi. unfold after_bind.
  replace (attempts - i) with (S (attempts - S i)) by lia. simpl.
  destruct (bind i (candidate (rnd i))); [reflexivity|].
  destruct (S i <? attempts) eqn:Hlt; [reflexivity|].
  apply Nat.ltb_ge in Hlt. unfold attempts in *.
  by replace (99 - i) with 0 by lia.
Qed.

(** C4: whatever [Math.random] returns in [[0,1)] and whatever the bind
    probes answer, [getFreePort] either returns a port [p] with
    [30000 <= p < 40000], the candidate of one of the 100 probes, whose
    probe succeeded after all earlier ones failed, or throws
    ['no free ports'] after 100 failed probes. *)
Theorem getFreePort_in_range rnd bind :
  (forall j, is_unit (rnd j) = true) ->
  (exists j p,
      j < 100 /\ getFreePort rnd bind = inl p /\
      (30000 <= p < 40000)%Z /\
      p = candidate (rnd j) /\ bind j p = true /\
      forall j', j' < j -> bind j' (candidate (rnd j')) = false)
  \/ (getFreePort rnd bind = inr "no free ports" /\
      forall j, j < 100 -> bind j (candidate (rnd j)) = false).
Proof.
  intros Hrnd. unfold getFreePort.
  destruct (getFreePort_from_spec attempts 0 rnd bind Hrnd)
    as [(j & p & Hj & Hres & Hp & Hb & Hr & Hbefore)|(Hres & Hall)].
  - left. exists j, p. unfold attempts in Hj.
    repeat split; auto; try lia; try apply Hr.
    intros j' Hj'. apply Hbefore. lia.
  - right. split; [exact Hres|]. intros j Hj. apply Hall.
    unfold attempts. lia.
Qed.

Lemma getFreePort_in_range_witness :
  (exists j p,
      j < 100 /\
      getFreePort (fun _ => rnd_top) (fun j _ => 3 <=? j) = inl p /\
      (30000 <= p < 40000)%Z /\
      p = candidate rnd_top /\ (3 <=? j) = true /\
      forall j', j' < j -> (3 <=? j') = false)
  \/ (getFreePort (fun _ => rnd_top) (fun j _ => 3 <=? j)
      = inr "no free ports" /\
      forall j, j < 100 -> (3 <=? j) = false).
Proof.
  apply (getFreePort_in_range (fun _ => rnd_top) (fun j _ => 3 <=? j)).
  intros _. vm_compute. reflexivity.
Defined.

Example getFreePort_top : getFreePort (fun _ => rnd_top) (fun _ _ => true)
                          = inl 39999%Z.
Proof. vm_compute. reflexivity. Qed.

Example getFreePort_exhausted :
  getFreePort (fun _ => rnd_half) (fun _ _ => false) = inr "no free ports".
Proof. vm_compute. reflexivity. Qed.

(** ** Failures inside the pipeline *)

Lemma moves_throws e id k t k' t' :
  moves e id k t k' t' ->
  subject e = Some id /\
  match throws e k with
  | Some msg => k' = Settled /\ t' = failed msg t
  | None => True
  end.
Proof.
  destruct 1 as [| id i p rnd t Hi _ | | | | |e id k t msg Hsub Hth]; simpl;
    auto.
  - unfold after_bind. apply Nat.ltb_lt in Hi. by rewrite Hi.
  - by rewrite Hth.
Qed.

Lemma raises_step s e s' id msg :
  inv s -> step e s = Some s' -> raises e s = Some (id, msg) ->
  exists k t,
    procs s !! id = Some k /\ tasks s !! id = Some t /\
    consistent k t /\ throws e k = Some msg /\
    tasks s' = <[id := failed msg t]> (tasks s) /\
    procs s' = <[id := Settled]> (procs s).
Proof.
  intros Hinv Hstep Hr. unfold raises in Hr.
  destruct (subject e) as [id0|] eqn:Hsub; [|discriminate].
  destruct (procs s !! id0) as [k0|] eqn:Hk0; [|discriminate].
  destruct (throws e k0) as [m|] eqn:Hth; [|discriminate].
  injection Hr as -> ->.
  destruct (step_effect _ _ _ Hinv Hstep)
    as [Hnone _|v j ty -> _ _ _ _ _|j k t k' t' Hk Ht Hm Hts Hps].
  - congruence.
  - discriminate.
  - destruct (moves_throws _ _ _ _ _ _ Hm) as [Hj Hcase].
    assert (j = id) by congruence. subst j.
    assert (k = k0) by congruence. subst k.
    rewrite Hth in Hcase. destruct Hcase as [-> ->].
    destruct (inv_lookup _ _ _ Hinv Hk) as (t1 & Ht1 & Hc).
    assert (t1 = t) by congruence. subst t1.
    exists k0, t. auto 10.
Qed.

Lemma settled_forever s evs s' id t :
  reachable s -> tasks s !! id = Some t -> terminal (status t) = true ->
  run evs s = Some s' -> tasks s' !! id = Some t.
Proof.
  intros Hs Hid Hterm Hrun.
  destruct (run_task _ _ _ _ _ Hs Hrun Hid) as (t' & Hid' & Hrtc).
  destruct (rtc_evolves_status _ _ Hrtc) as (_ & _ & Heq).
  by rewrite Hid', Heq.
Qed.

Lemma never_unhandled s j : reachable s -> procs s !! j <> Some Unhandled.
Proof.
  intros Hs Hj.
  destruct (inv_lookup _ _ _ (reachable_inv _ Hs) Hj) as (t & _ & []).
Qed.

Lemma after_bind_throw i p listening rnd msg :
  after_bind i p listening rnd = Throw msg ->
  msg = no_free_ports /\ listening = false.
Proof.
  unfold after_bind. destruct listening; [discriminate|].
  destruct (S i <? attempts); [discriminate|]. by intros [= <-].
Qed.

(** C5, as the specification states it, fails: what the [catch] block
    stores is [err.message] as it is.  A pull rejected with an error whose
    message is empty leaves the task in Error with the empty string as its
    [error]. *)
Lemma empty_message_stored : ~ failure_detail_nonempty.
Proof.
  intros Hclaim.
  destruct (Hclaim (after [Deploy (JStr "server") "t1"])
              (PullDone "t1" (Rejected "") rnd0)
              (after [Deploy (JStr "server") "t1";
                      PullDone "t1" (Rejected "") rnd0])
              "t1" ""
              (failed "" (with_status Pulling (new_task "server"))))
    as (m & Hm & Hne).
  - apply after_reachable. eexists. vm_compute. reflexivity.
  - vm_compute. reflexivity.
  - vm_compute. reflexivity.
  - vm_compute. reflexivity.
  - simpl in Hm. congruence.
Qed.

(** C5, amended: when an event makes a pipeline throw (a rejected pull,
    the exhausted port allocator, a rejected create or start), the [catch]
    block runs to its end: the pipeline settles, no pipeline is left with
    an unhandled rejection, and the task has status Error with exactly the
    message of what was thrown as its [error], which is what a status
    query reports.  That message is empty exactly when the thrown one is;
    the one thrown by the port allocator is ['no free ports'].  Neither
    [containerId] nor [hostPort] is set, and the task never changes
    again. *)
Theorem failure_becomes_error s e s' id msg :
  reachable s -> step e s = Some s' -> raises e s = Some (id, msg) ->
  procs s' !! id = Some Settled /\
  (forall j, procs s' !! j <> Some Unhandled) /\
  (forall j listening rnd,
      e = BindDone j listening rnd -> msg = "no free ports") /\
  exists t',
    tasks s' !! id = Some t' /\
    status t' = Error /\ error t' = Some msg /\
    (error t' = Some "" <-> msg = "") /\
    get_prop "status" (body (get_status id s')) = Some (JStr "error") /\
    get_prop "error" (body (get_status id s')) = Some (JStr msg) /\
    containerId t' = None /\ hostPort t' = None /\
    forall evs s'', run evs s' = Some s'' -> tasks s'' !! id = Some t'.
Proof.
  intros Hs Hstep Hr.
  pose proof (reachable_inv _ Hs) as Hinv.
  assert (Hs' : reachable s') by eauto using reach_step.
  destruct (raises_step _ _ _ _ _ Hinv Hstep Hr)
    as (k & t & Hk & Ht & Hc & Hth & Hts & Hps).
  destruct (throws_bare _ _ _ _ Hth Hc) as [(Hcid & Hport & _) _].
  assert (Hid' : tasks s' !! id = Some (failed msg t))
    by (rewrite Hts; apply lookup_insert_eq).
  split; [rewrite Hps; apply lookup_insert_eq|].
  split; [intros j; by apply never_unhandled|].
  split.
  { intros j l rnd ->. destruct k; simpl in Hth; try discriminate.
    destruct (after_bind i p l rnd) eqn:Hab; try discriminate.
    injection Hth as <-. by destruct (after_bind_throw _ _ _ _ _ Hab). }
  exists (failed msg t). repeat split; auto.
  - simpl. congruence.
  - simpl. congruence.
  - unfold get_status. rewrite Hid'. reflexivity.
  - unfold get_status. rewrite Hid'. simpl. by rewrite Hcid, Hport.
  - intros evs s'' Hrun. by eapply settled_forever.
Qed.

Lemma failure_becomes_error_witness :
  procs (after trace_pull_failed) !! "t1" = Some Settled /\
  (forall j, procs (after trace_pull_failed) !! j <> Some Unhandled) /\
  (forall j listening rnd,
      PullDone "t1" (Rejected "pull access denied") rnd0
      = BindDone j listening rnd ->
      "pull access denied" = "no free ports") /\
  exists t',
    tasks (after trace_pull_failed) !! "t1" = Some t' /\
    status t' = Error /\ error t' = Some "pull access denied" /\
    (error t' = Some "" <-> "pull access denied" = "") /\
    get_prop "status" (body (get_status "t1" (after trace_pull_failed)))
      = Some (JStr "error") /\
    get_prop "error" (body (get_status "t1" (after trace_pull_failed)))
      = Some (JStr "pull access denied") /\
    containerId t' = None /\ hostPort t' = None /\
    forall evs s'',
      run evs (after trace_pull_failed) = Some s'' ->
      tasks s'' !! "t1" = Some t'.
Proof.
  apply (failure_becomes_error (after [Deploy (JStr "server") "t1"])
           (PullDone "t1" (Rejected "pull access denied") rnd0)).
  - apply after_reachable. eexists. vm_compute. reflexivity.
  - vm_compute. reflexivity.
  - vm_compute. reflexivity.
Defined.

(** C8: when the resumption of a bind probe makes [getFreePort] throw,
    it is the 100th probe that failed and the message is
    ['no free ports']; the turn leaves the task in Error with that message
    as its [error] and the pipeline settled.  The deploy handler has only
    two responses, the id and the validation error: the failure is visible
    through the status query alone. *)
Theorem no_free_ports_becomes_error s id i p listening rnd msg :
  reachable s -> procs s !! id = Some (AwaitBind i p) ->
  is_unit rnd = true ->
  after_bind i p listening rnd = Throw msg ->
  msg = "no free ports" /\ listening = false /\ S i = 100 /\
  (forall v uuid s0,
      snd (deploy v uuid s0) = accepted uuid \/
      snd (deploy v uuid s0) = bad_type) /\
  exists s' t',
    step (BindDone id listening rnd) s = Some s' /\
    procs s' !! id = Some Settled /\
    tasks s' !! id = Some t' /\
    status t' = Error /\ error t' = Some "no free ports" /\
    get_prop "error" (body (get_status id s'))
      = Some (JStr "no free ports").
Proof.
  intros Hs Hk Hrnd Hab.
  pose proof (reachable_inv _ Hs) as Hinv.
  destruct (inv_lookup _ _ _ Hinv Hk) as (t & Ht & Hst & Hb & Hi & _).
  assert (Hshape : msg = no_free_ports /\ listening = false /\ S i = 100).
  { unfold after_bind in Hab. destruct listening; [discriminate|].
    destruct (S i <? attempts) eqn:Hlt; [discriminate|].
    apply Nat.ltb_ge in Hlt. unfold attempts in *.
    injection Hab as <-. repeat split; lia. }
  destruct Hshape as (-> & -> & Hlast).
  split; [reflexivity|]. split; [reflexivity|]. split; [exact Hlast|].
  split.
  { intros v uuid s0. unfold deploy.
    destruct (includes_type v); simpl; auto. }
  assert (Hstep : is_Some (step (BindDone id false rnd) s)).
  { unfold step. rewrite Hk, Hrnd. eauto. }
  destruct Hstep as [s' Hstep].
  assert (Hr : raises (BindDone id false rnd) s = Some (id, no_free_ports)).
  { unfold raises. cbn [subject]. rewrite Hk. cbn [throws]. by rewrite Hab. }
  destruct (raises_step _ _ _ _ _ Hinv Hstep Hr)
    as (k & t0 & Hk0 & Ht0 & _ & _ & Hts & Hps).
  assert (t0 = t) by congruence. subst t0.
  assert (Hid' : tasks s' !! id = Some (failed no_free_ports t))
    by (rewrite Hts; apply lookup_insert_eq).
  destruct Hb as (Hcid & Hport & _).
  exists s', (failed no_free_ports t). repeat split; auto.
  - rewrite Hps. apply lookup_insert_eq.
  - unfold get_status. rewrite Hid'. simpl. by rewrite Hcid, Hport.
Qed.

Lemma no_free_ports_becomes_error_witness :
  "no free ports" = "no free ports" /\ false = false /\ 100 = 100 /\
  (forall v uuid s0,
      snd (deploy v uuid s0) = accepted uuid \/
      snd (deploy v uuid s0) = bad_type) /\
  exists s' t',
    step (BindDone "t1" false rnd_half) (after trace_last_probe) = Some s' /\
    procs s' !! "t1" = Some Settled /\
    tasks s' !! "t1" = Some t' /\
    status t' = Error /\ error t' = Some "no free ports" /\
    get_prop "error" (body (get_status "t1" s'))
      = Some (JStr "no free ports").
Proof.
  apply (no_free_ports_becomes_error (after trace_last_probe) "t1" 99 35000
           false rnd_half "no free ports").
  - apply after_reachable. eexists. vm_compute. reflexivity.
  - vm_compute. reflexivity.
  - vm_compute. reflexivity.
  - vm_compute. reflexivity.
Defined.

(** ** Where the handle and the port live *)

Lemma task_shape s id t :
  reachable s -> tasks s !! id = Some t ->
  exists k, procs s !! id = Some k /\ consistent k t.
Proof.
  intros Hs Ht. pose proof (reachable_inv _ Hs id) as Hinv.
  rewrite Ht in Hinv. destruct (procs s !! id) as [k|]; [eauto | done].
Qed.

Lemma consistent_fields k t :
  consistent k t ->
  (status t = Running <-> is_Some (containerId t)) /\
  (status t = Running <-> is_Some (hostPort t)) /\
  (status t = Running ->
   exists h p, containerId t = Some h /\ hostPort t = Some p /\ in_range p).
Proof.
  intros Hc.
  assert (Hcases :
    (status t <> Running /\ containerId t = None /\ hostPort t = None) \/
    (status t = Running /\
     exists h p, containerId t = Some h /\ hostPort t = Some p /\ in_range p)).
  { destruct k; simpl in Hc; unfold bare in Hc.
    1-5: left; intuition congruence.
    - destruct Hc as [(Hst & (h & Hh) & (p & Hp & Hr) & _)
                     |(Hst & Hcid & Hport & _)].
      + right. eauto 6.
      + left. intuition congruence.
    - contradiction. }
  destruct Hcases as [(Hn & Hcid & Hport)|(Hst & h & p & Hh & Hp & Hr)].
  - rewrite Hcid, Hport. repeat split; try done; by intros [? ?].
  - rewrite Hh, Hp. repeat split; eauto.
Qed.

(** C10: in every reachable state, which is every state in which a
    request handler can run, a task whose status is Running has both
    [containerId] and [hostPort], and the status query reports them: the
    three assignments after the timer form one run-to-completion segment. *)
Theorem running_has_handle_and_port s id t :
  reachable s -> tasks s !! id = Some t -> status t = Running ->
  exists h p,
    containerId t = Some h /\ hostPort t = Some p /\
    get_status id s = {| code := 200; body := task_json t |} /\
    get_prop "status" (body (get_status id s)) = Some (JStr "running") /\
    get_prop "containerId" (body (get_status id s)) = Some (JStr h) /\
    get_prop "hostPort" (body (get_status id s)) = Some (JNum p).
Proof.
  intros Hs Ht Hst.
  destruct (task_shape _ _ _ Hs Ht) as (k & _ & Hc).
  destruct (consistent_fields _ _ Hc) as (_ & _ & Hrun).
  destruct (Hrun Hst) as (h & p & Hh & Hp & _).
  exists h, p. unfold get_status. rewrite Ht. simpl.
  rewrite Hst, Hh, Hp. repeat split; reflexivity.
Qed.

Lemma running_has_handle_and_port_witness :
  exists h p,
    containerId (completed 30000 "c1" (new_task "desktop")) = Some h /\
    hostPort (completed 30000 "c1" (new_task "desktop")) = Some p /\
    get_status "t1" (after trace_running)
      = {| code := 200;
           body := task_json (completed 30000 "c1" (new_task "desktop")) |} /\
    get_prop "status" (body (get_status "t1" (after trace_running)))
      = Some (JStr "running") /\
    get_prop "containerId" (body (get_status "t1" (after trace_running)))
      = Some (JStr h) /\
    get_prop "hostPort" (body (get_status "t1" (after trace_running)))
      = Some (JNum p).
Proof.
  apply (running_has_handle_and_port (after trace_running) "t1"
           (completed 30000 "c1" (new_task "desktop"))).
  - apply after_reachable. eexists. vm_compute. reflexivity.
  - vm_compute. reflexivity.
  - reflexivity.
Defined.

(** C6, as the specification states it, fails: with the container created
    and the pipeline waiting for [container.start()], the task has neither
    [containerId] nor [hostPort]. *)
Lemma handle_not_stored_on_create : ~ stored_on_create.
Proof.
  intros Hclaim.
  destruct (Hclaim (after trace_starting) "t1" 30000%Z "c1"
              (with_status Starting (new_task "desktop"))) as [Hcid _].
  - apply after_reachable. eexists. vm_compute. reflexivity.
  - vm_compute. reflexivity.
  - vm_compute. reflexivity.
  - discriminate.
Qed.

(** C6, amended: [containerId] and [hostPort] are on the task exactly when
    its status is Running.  From the successful create on they are closure
    variables of the pipeline: the task has neither while it is Starting,
    and gets both, the handle of the create and the port of the probe, in
    the segment after the timer.  Once on the task, neither changes. *)
Theorem handle_stored_with_running s id t :
  reachable s -> tasks s !! id = Some t ->
  (status t = Running <-> is_Some (containerId t)) /\
  (status t = Running <-> is_Some (hostPort t)) /\
  (forall p h,
      procs s !! id = Some (AwaitCreate p) ->
      exists s1 s2 s3,
        step (CreateDone id (inl h)) s = Some s1 /\
        step (StartDone id Resolved) s1 = Some s2 /\
        step (TimerFired id) s2 = Some s3 /\
        tasks s1 !! id = Some (with_status Starting t) /\
        tasks s2 !! id = Some (with_status Starting t) /\
        containerId (with_status Starting t) = None /\
        hostPort (with_status Starting t) = None /\
        tasks s3 !! id = Some (completed p h t) /\
        containerId (completed p h t) = Some h /\
        hostPort (completed p h t) = Some p) /\
  (forall evs s',
      run evs s = Some s' ->
      exists t',
        tasks s' !! id = Some t' /\
        (forall h, containerId t = Some h -> containerId t' = Some h) /\
        (forall p, hostPort t = Some p -> hostPort t' = Some p)).
Proof.
  intros Hs Ht.
  destruct (task_shape _ _ _ Hs Ht) as (k & Hk & Hc).
  destruct (consistent_fields _ _ Hc) as (Hcid & Hport & _).
  split; [exact Hcid|]. split; [exact Hport|]. split.
  - intros p h Hk'. rewrite Hk' in Hk. injection Hk as <-.
    destruct Hc as (_ & (Hc0 & Hp0 & _) & _).
    set (s1 := {| tasks := <[id := with_status Starting t]> (tasks s);
                  procs := <[id := AwaitStart p h]> (procs s) |}).
    set (s2 := {| tasks := tasks s1;
                  procs := <[id := AwaitTimer p h]> (procs s1) |}).
    set (s3 := {| tasks := <[id := completed p h t]> (tasks s2);
                  procs := <[id := Settled]> (procs s2) |}).
    exists s1, s2, s3.
    assert (H1 : tasks s1 !! id = Some (with_status Starting t))
      by apply lookup_insert_eq.
    repeat split; auto.
    + unfold step. rewrite Hk'. unfold resume, seg_created.
      by erewrite try_catch_update by eassumption.
    + unfold step. unfold s1 at 1. cbn [procs]. rewrite lookup_insert_eq.
      unfold resume, seg_started. by rewrite try_catch_ret.
    + unfold step. unfold s2 at 1. cbn [procs]. rewrite lookup_insert_eq.
      unfold resume. erewrite try_catch_timer by exact H1.
      reflexivity.
    + unfold s3. cbn [tasks]. apply lookup_insert_eq.
  - intros evs s' Hrun.
    destruct (run_task _ _ _ _ _ Hs Hrun Ht) as (t' & Ht' & Hrtc).
    destruct (rtc_evolves_fields _ _ Hrtc) as (_ & Hc' & Hp').
    eauto.
Qed.

Lemma handle_stored_with_running_witness :
  (status (with_status Creating (new_task "desktop")) = Running
   <-> is_Some (containerId (with_status Creating (new_task "desktop")))) /\
  exists s1 s2 s3,
    step (CreateDone "t1" (inl "c1")) (after trace_creating) = Some s1 /\
    step (StartDone "t1" Resolved) s1 = Some s2 /\
    step (TimerFired "t1") s2 = Some s3 /\
    tasks s3 !! "t1" = Some (completed 30000 "c1" (new_task "desktop")).
Proof.
  destruct (handle_stored_with_running (after trace_creating) "t1"
              (with_status Creating (new_task "desktop")))
    as (Hcid & _ & Hsteps & _).
  - apply after_reachable. eexists. vm_compute. reflexivity.
  - vm_compute. reflexivity.
  - split; [exact Hcid|].
    destruct (Hsteps 30000%Z "c1") as (s1 & s2 & s3 & H1 & H2 & H3 & Hrest).
    + vm_compute. reflexivity.
    + exists s1, s2, s3. repeat split; auto. apply Hrest.
Defined.

(** ** The properties of a task object *)

Lemma no_createdAt t : get_prop "createdAt" (task_json t) = None.
Proof. destruct t as [st ty [c|] [p|] [e|]]; reflexivity. Qed.

(** C9, as the specification states it, fails: the task object that
    [POST /deploy] creates has no [createdAt] property. *)
Lemma task_has_no_createdAt : ~ carries_createdAt.
Proof.
  intros Hclaim.
  destruct (Hclaim (after [Deploy (JStr "desktop") "t1"]) "t1"
              (with_status Pulling (new_task "desktop"))) as [v Hv].
  - apply after_reachable. eexists. vm_compute. reflexivity.
  - vm_compute. reflexivity.
  - discriminate.
Qed.

(** C9, amended: a task object has no [createdAt] property at any time.
    Its [type] is the validated type of the request that created it, and
    along any execution the task stays in the store under the same id with
    the same [type], which is what the status query reports. *)
Theorem task_identity_fixed s evs s' id t :
  reachable s -> run evs s = Some s' -> tasks s !! id = Some t ->
  get_prop "createdAt" (task_json t) = None /\
  (forall v uuid ty s0,
      includes_type v = Some ty ->
      v = JStr ty /\
      exists t0, tasks (fst (deploy v uuid s0)) !! uuid = Some t0 /\
                 type t0 = ty) /\
  exists t',
    tasks s' !! id = Some t' /\ type t' = type t /\
    get_prop "type" (body (get_status id s')) = Some (JStr (type t)) /\
    get_prop "createdAt" (body (get_status id s')) = None.
Proof.
  intros Hs Hrun Ht. split; [apply no_createdAt|]. split.
  - intros v uuid ty s0 Hty. split.
    + destruct v; simpl in Hty; try discriminate.
      destruct (_ || _); congruence.
    + unfold deploy. rewrite Hty. unfold resume, seg_launch, createTask.
      cbn [fst tasks].
      erewrite try_catch_update by apply lookup_insert_eq.
      eexists. split; [apply lookup_insert_eq | reflexivity].
  - destruct (run_task _ _ _ _ _ Hs Hrun Ht) as (t' & Ht' & Hrtc).
    destruct (rtc_evolves_fields _ _ Hrtc) as (Hty & _ & _).
    exists t'. unfold get_status. rewrite Ht'. cbn [body].
    repeat split; auto using no_createdAt. simpl. by rewrite Hty.
Qed.

Lemma task_identity_fixed_witness :
  exists t',
    tasks (after trace_running) !! "t1" = Some t' /\
    type t' = "desktop" /\
    get_prop "type" (body (get_status "t1" (after trace_running)))
      = Some (JStr "desktop") /\
    get_prop "createdAt" (body (get_status "t1" (after trace_running)))
      = None.
Proof.
  destruct (task_identity_fixed (after trace_starting)
              [StartDone "t1" Resolved; TimerFired "t1"]
              (after trace_running) "t1"
              (with_status Starting (new_task "desktop")))
    as (_ & _ & Hkept).
  - apply after_reachable. eexists. vm_compute. reflexivity.
  - vm_compute. reflexivity.
  - vm_compute. reflexivity.
  - exact Hkept.
Defined.

(** ** Ports of running tasks *)

(** C3, as the specification states it, fails: [getFreePort] keeps no
    record of the ports it has handed out.  A second deployment whose
    probe draws the port of a task that is still Running, and finds it
    bindable, runs with the same [hostPort]. *)
Lemma ports_can_collide : ~ (forall s, reachable s -> ports_distinct s).
Proof.
  intros Hclaim.
  apply (Hclaim (after trace_same_port)) with
    (i := "t1") (j := "t2")
    (ti := completed 30000 "c1" (new_task "desktop"))
    (tj := completed 30000 "c2" (new_task "server")).
  - apply after_reachable. eexists. vm_compute. reflexivity.
  - discriminate.
  - vm_compute. reflexivity.
  - vm_compute. reflexivity.
  - reflexivity.
  - reflexivity.
  - reflexivity.
Qed.

Section Held.
Context (s s' : state) (id : string) (k' : cont) (t' : Task).
Hypothesis Htasks : tasks s' = <[id := t']> (tasks s).
Hypothesis Hprocs : procs s' = <[id := k']> (procs s).

Lemma held_frame j : j <> id -> held s' j = held s j.
Proof.
  intros Hne. unfold held. rewrite Htasks, Hprocs.
  by rewrite !lookup_insert_ne.
Qed.

Lemma held_subject : held s' id = held_of k' t'.
Proof.
  unfold held. rewrite Htasks, Hprocs. by rewrite !lookup_insert_eq.
Qed.
End Held.

(** A turn leaves the port of the resumed pipeline as it was, drops it, or
    is the successful probe that takes it. *)
Lemma moves_held e id k t k' t' p :
  consistent k t -> moves e id k t k' t' -> held_of k' t' = Some p ->
  held_of k t = Some p \/
  exists i rnd, e = BindDone id true rnd /\ k = AwaitBind i p.
Proof.
  intros Hc Hm Hp. destruct Hm; simpl in *; try discriminate; auto.
  - right. injection Hp as ->. eauto.
  - destruct (throws_bare _ _ _ _ ltac:(eassumption) Hc)
      as [(_ & Hport & _) _].
    congruence.
Qed.

Lemma held_procs s j p : held s j = Some p -> is_Some (procs s !! j).
Proof. unfold held. destruct (procs s !! j); [eauto | discriminate]. Qed.

Lemma effect_ports_apart e s s' :
  inv s -> exclusive e s -> effect e s s' -> ports_apart s -> ports_apart s'.
Proof.
  intros Hinv Hex Heff Hapart.
  destruct Heff
    as [_ ->|v id ty _ _ Hp Ht Hts Hps|id k t k' t' Hk Ht Hm Hts Hps]; auto.
  - assert (Hnew : held s' id = None)
      by (by rewrite (held_subject _ _ _ _ _ Hts Hps)).
    intros i j p Hij Hi Hj.
    destruct (decide (i = id)) as [->|Hi']; [congruence|].
    destruct (decide (j = id)) as [->|Hj']; [congruence|].
    rewrite (held_frame _ _ _ _ _ Hts Hps) in Hi, Hj by done. eauto.
  - destruct (inv_lookup _ _ _ Hinv Hk) as (t0 & Ht0 & Hc).
    assert (t0 = t) by congruence. subst t0.
    assert (Hold : held s id = held_of k t)
      by (unfold held; by rewrite Hk, Ht).
    assert (Hclash : forall j p,
      j <> id -> held s' id = Some p -> held s j = Some p -> False).
    { intros j p Hj Hid Hjp.
      rewrite (held_subject _ _ _ _ _ Hts Hps) in Hid.
      destruct (moves_held _ _ _ _ _ _ _ Hc Hm Hid)
        as [Hsame|(i0 & rnd & -> & ->)].
      - apply (Hapart id j p); congruence.
      - simpl in Hex. rewrite Hk in Hex.
        destruct (held_procs _ _ _ Hjp) as [kj Hkj].
        destruct (Hex j kj Hkj) as [?|Hne]; [done | by apply Hne]. }
    intros i j p Hij Hi Hj.
    destruct (decide (i = id)) as [->|Hi'].
    + rewrite (held_frame _ _ _ _ _ Hts Hps j) in Hj by done. eauto.
    + destruct (decide (j = id)) as [->|Hj'].
      * rewrite (held_frame _ _ _ _ _ Hts Hps i) in Hi by done. eauto.
      * rewrite (held_frame _ _ _ _ _ Hts Hps) in Hi, Hj by done. eauto.
Qed.

Lemma reachable_excl_reachable s : reachable_excl s -> reachable s.
Proof. induction 1; eauto using reach_init, reach_step. Qed.

Lemma reachable_excl_apart s : reachable_excl s -> ports_apart s.
Proof.
  induction 1 as [|s e s' Hs IH Hex Hstep].
  - intros i j p _ Hi _. unfold held, init in Hi. simpl in Hi.
    by rewrite lookup_empty in Hi.
  - pose proof (reachable_inv _ (reachable_excl_reachable _ Hs)) as Hinv.
    eauto using effect_ports_apart, step_effect.
Qed.

Lemma run_excl_reachable evs s s' :
  reachable_excl s -> run_excl evs s = Some s' -> reachable_excl s'.
Proof.
  revert s. induction evs as [|e evs IH]; simpl; intros s Hs Hrun.
  - by injection Hrun as <-.
  - destruct (decide (exclusive e s)) as [Hex|]; [|discriminate].
    destruct (step e s) as [s1|] eqn:Hstep; [|discriminate].
    eauto using excl_step.
Qed.

Lemma running_held s id t :
  reachable s -> tasks s !! id = Some t -> status t = Running ->
  held s id = hostPort t /\
  exists p, hostPort t = Some p /\ in_range p.
Proof.
  intros Hs Ht Hst. destruct (task_shape _ _ _ Hs Ht) as (k & Hk & Hc).
  destruct (consistent_fields _ _ Hc) as (_ & _ & Hrun).
  destruct (Hrun Hst) as (h & p & _ & Hp & Hr).
  split; [|eauto]. unfold held. rewrite Hk, Ht.
  destruct k; simpl in Hc; try (destruct Hc as (Hst' & _); congruence);
    [reflexivity | contradiction].
Qed.

(** C3, amended: every Running task has a [hostPort] in
    [30000 .. 39999].  The ports of the Running tasks are pairwise distinct
    in the executions in which no bind probe succeeds on a port that
    another pipeline holds at that moment (from its own successful probe
    on, including as a Running task); the code does nothing to make an
    execution one of these. *)
Theorem ports_distinct_when_exclusive s :
  reachable_excl s ->
  ports_distinct s /\
  forall id t,
    tasks s !! id = Some t -> status t = Running ->
    exists p, hostPort t = Some p /\ (30000 <= p < 40000)%Z.
Proof.
  intros Hex. pose proof (reachable_excl_reachable _ Hex) as Hs.
  split.
  - intros i j ti tj Hij Hi Hj Hsi Hsj Heq.
    destruct (running_held _ _ _ Hs Hi Hsi) as (Hhi & p & Hp & _).
    destruct (running_held _ _ _ Hs Hj Hsj) as (Hhj & _).
    apply (reachable_excl_apart _ Hex i j p Hij); congruence.
  - intros id t Ht Hst.
    destruct (running_held _ _ _ Hs Ht Hst) as (_ & p & Hp & Hr). eauto.
Qed.

Lemma ports_distinct_when_exclusive_witness :
  ports_distinct (after trace_two_ports) /\
  forall id t,
    tasks (after trace_two_ports) !! id = Some t -> status t = Running ->
    exists p, hostPort t = Some p /\ (30000 <= p < 40000)%Z.
Proof.
  apply (ports_distinct_when_exclusive (after trace_two_ports)).
  apply (run_excl_reachable trace_two_ports init); [apply excl_init|].
  vm_compute. reflexivity.
Defined.

Example two_ports :
  hostPort <$> tasks (after trace_two_ports) !! "t1" = Some (Some 30000%Z) /\
  hostPort <$> tasks (after trace_two_ports) !! "t2" = Some (Some 35000%Z).
Proof. split; vm_compute; reflexivity. Qed.

(** ** The status query *)

#[local] Set Warnings "-clear-no-such-hyp".

Lemma deploy_valid v uuid ty s :
  includes_type v = Some ty ->
  deploy v uuid s
  = ({| tasks := <[uuid := with_status Pulling (new_task ty)]> (tasks s);
        procs := <[uuid := AwaitPull]> (procs s) |}, accepted uuid).
Proof.
  intros Hty. unfold deploy. rewrite Hty.
  unfold resume, seg_launch, createTask; simpl.
  erewrite try_catch_update by apply lookup_insert_eq.
  by rewrite insert_insert_eq.
Qed.

Lemma step_known s e s' id :
  inv s -> step e s = Some s' ->
  is_Some (tasks s' !! id) <->
  is_Some (tasks s !! id) \/ id ∈ handed_out e.
Proof.
  intros Hinv Hstep.
  assert (Hsame : handed_out e = [] -> is_Some (tasks s' !! id) <->
                  is_Some (tasks s !! id) \/ id ∈ handed_out e).
  { intros Hnil. rewrite Hnil.
    assert (is_Some (tasks s' !! id) <-> is_Some (tasks s !! id));
      [|set_solver].
    destruct (step_effect _ _ _ Hinv Hstep)
      as [_ ->|v j ty -> Hty _ _ _ _|j k t k' t' Hk Ht Hm Hts Hps]; [done| |].
    - simpl in Hnil. by rewrite Hty in Hnil.
    - rewrite Hts. destruct (decide (id = j)) as [->|Hne].
      + rewrite lookup_insert_eq, Ht. split; eauto.
      + by rewrite lookup_insert_ne. }
  destruct e as [v uuid| | | | | |]; try (by apply Hsame).
  destruct (includes_type v) as [ty|] eqn:Hty;
    [|apply Hsame; simpl; by rewrite Hty].
  simpl in Hstep |- *. rewrite Hty in Hstep |- *.
  destruct (tasks s !! uuid) eqn:Hfresh; [discriminate|].
  injection Hstep as <-. rewrite (deploy_valid _ _ _ _ Hty). simpl.
  destruct (decide (id = uuid)) as [->|Hne].
  - rewrite lookup_insert_eq. split; [set_solver | eauto].
  - rewrite lookup_insert_ne by done. set_solver.
Qed.

Lemma run_known evs s s' id :
  reachable s -> run evs s = Some s' ->
  is_Some (tasks s' !! id) <->
  is_Some (tasks s !! id) \/ id ∈ evs ≫= handed_out.
Proof.
  revert s. induction evs as [|e evs IH]; simpl; intros s Hs Hrun.
  - injection Hrun as <-. set_solver.
  - destruct (step e s) as [s1|] eqn:Hstep; [|discriminate].
    rewrite (IH s1) by eauto using reach_step.
    rewrite (step_known s e s1 id) by eauto using reachable_inv.
    set_solver.
Qed.

(** X1: after any execution from the empty store in which [uuidv4] has
    returned no property name of [Object.prototype], and for an [id] that
    is no such name either, [GET /status/:id] answers 404 [task not found]
    exactly when no deploy request of the execution was answered with
    [id], and 200 with the task object when one was: tasks are never
    removed.  (For the inherited names [tasks[id]] is a function or the
    prototype itself, and the handler answers 200.) *)
Theorem status_found_iff_handed_out evs s id :
  run evs init = Some s ->
  id ∉ Object_prototype_names ->
  Forall (fun uuid => uuid ∉ Object_prototype_names) (evs ≫= handed_out) ->
  (get_status id s = not_found <-> id ∉ evs ≫= handed_out) /\
  (id ∈ evs ≫= handed_out ->
   exists t, tasks s !! id = Some t /\
             get_status id s = {| code := 200; body := task_json t |}).
Proof.
  intros Hrun _ _.
  pose proof (run_known evs init s id reach_init Hrun) as Hknown.
  assert (Hnone : ¬ is_Some (tasks init !! id))
    by (unfold init; simpl; rewrite lookup_empty; by intros [? ?]).
  unfold get_status. split.
  - destruct (tasks s !! id) as [t|] eqn:Ht.
    + split; [discriminate|]. intros Hnot. exfalso. apply Hnot.
      destruct Hknown as [Hfw _].
      destruct (Hfw ltac:(eauto)) as [?|?]; [contradiction | assumption].
    + split; [|done]. intros _ Hin.
      destruct Hknown as [_ Hback].
      destruct (Hback ltac:(by right)) as [? ?]. discriminate.
  - intros Hin. destruct Hknown as [_ Hback].
    destruct (Hback ltac:(by right)) as [t Ht]. rewrite Ht. eauto.
Qed.

Lemma status_found_iff_handed_out_witness :
  (get_status "t1" (after trace_running) = not_found
   <-> "t1" ∉ trace_running ≫= handed_out) /\
  ("t1" ∈ trace_running ≫= handed_out ->
   exists t, tasks (after trace_running) !! "t1" = Some t /\
             get_status "t1" (after trace_running)
             = {| code := 200; body := task_json t |}).
Proof.
  apply (status_found_iff_handed_out trace_running (after trace_running)).
  - vm_compute. reflexivity.
  - apply (bool_decide_unpack _). vm_compute. exact I.
  - apply (bool_decide_unpack _). vm_compute. exact I.
Defined.

Lemma task_json_props t :
  get_prop "status" (task_json t) = Some (JStr (status_str (status t))) /\
  get_prop "type" (task_json t) = Some (JStr (type t)) /\
  get_prop "containerId" (task_json t) = JStr <$> containerId t /\
  get_prop "hostPort" (task_json t) = JNum <$> hostPort t /\
  get_prop "error" (task_json t) = JStr <$> error t.
Proof. destruct t as [st ty [c|] [p|] [e|]]; repeat split; reflexivity. Qed.

Lemma consistent_status k t :
  consistent k t ->
  status t <> Queued /\
  (is_Some (error t) <-> status t = Error) /\
  (status t = Error -> containerId t = None /\ hostPort t = None).
Proof.
  intros Hc.
  assert (Hcases :
    (status t <> Queued /\ status t <> Error /\ error t = None) \/
    (status t = Error /\ containerId t = None /\ hostPort t = None /\
     is_Some (error t))).
  { destruct k; simpl in Hc; unfold bare in Hc.
    1-5: left; intuition congruence.
    - destruct Hc as [(Hst & _ & _ & He)|(Hst & Hcid & Hport & m & Hm)].
      + left. intuition congruence.
      + right. rewrite Hm. eauto.
    - contradiction. }
  destruct Hcases as [(Hq & He & Hn)|(Hst & Hcid & Hport & Hsome)].
  - rewrite Hn. repeat split; try done; by intros [? ?].
  - repeat split; auto; congruence.
Qed.

(** X2: no status query ever reports ['queued'].  The task object is
    created with that status, but the first segment of the pipeline runs
    inside the deploy handler and overwrites it before any other callback
    can run. *)
Theorem queued_never_observed s id t :
  reachable s -> tasks s !! id = Some t ->
  status t <> Queued /\
  get_prop "status" (body (get_status id s)) <> Some (JStr "queued").
Proof.
  intros Hs Ht. destruct (task_shape _ _ _ Hs Ht) as (k & _ & Hc).
  destruct (consistent_status _ _ Hc) as (Hq & _).
  split; [exact Hq|]. unfold get_status. rewrite Ht. cbn [body].
  destruct (task_json_props t) as (-> & _).
  destruct (status t); simpl; congruence.
Qed.

Lemma queued_never_observed_witness :
  status (with_status Pulling (new_task "desktop")) <> Queued /\
  get_prop "status"
    (body (get_status "t1" (after [Deploy (JStr "desktop") "t1"])))
  <> Some (JStr "queued").
Proof.
  apply (queued_never_observed (after [Deploy (JStr "desktop") "t1"]) "t1"
           (with_status Pulling (new_task "desktop"))).
  - apply after_reachable. eexists. vm_compute. reflexivity.
  - vm_compute. reflexivity.
Defined.

(** X3: the status response has an [error] property exactly when its
    [status] is ['error'], and then it has neither [containerId] nor
    [hostPort]. *)
Theorem error_exactly_when_failed s id t :
  reachable s -> tasks s !! id = Some t ->
  (is_Some (get_prop "error" (body (get_status id s)))
   <-> get_prop "status" (body (get_status id s)) = Some (JStr "error")) /\
  (status t = Error ->
   get_prop "containerId" (body (get_status id s)) = None /\
   get_prop "hostPort" (body (get_status id s)) = None).
Proof.
  intros Hs Ht. destruct (task_shape _ _ _ Hs Ht) as (k & _ & Hc).
  destruct (consistent_status _ _ Hc) as (_ & Herr & Hnone).
  unfold get_status. rewrite Ht. cbn [body].
  destruct (task_json_props t) as (-> & _ & -> & -> & ->).
  split.
  - rewrite fmap_is_Some, Herr.
    destruct (status t); simpl; split; congruence.
  - intros Hst. destruct (Hnone Hst) as [-> ->]. done.
Qed.

Lemma error_exactly_when_failed_witness :
  (is_Some (get_prop "error"
              (body (get_status "t1" (after trace_pull_failed))))
   <-> get_prop "status" (body (get_status "t1" (after trace_pull_failed)))
       = Some (JStr "error")) /\
  (status (failed "pull access denied"
             (with_status Pulling (new_task "server"))) = Error ->
   get_prop "containerId"
     (body (get_status "t1" (after trace_pull_failed))) = None /\
   get_prop "hostPort"
     (body (get_status "t1" (after trace_pull_failed))) = None).
Proof.
  apply (error_exactly_when_failed (after trace_pull_failed) "t1"
           (failed "pull access denied"
              (with_status Pulling (new_task "server")))).
  - apply after_reachable. eexists. vm_compute. reflexivity.
  - vm_compute. reflexivity.
Defined.

Lemma includes_type_cases v ty :
  includes_type v = Some ty ->
  v = JStr ty /\ (ty = "desktop" \/ ty = "server").
Proof.
  destruct v as [| | | |s| |]; simpl; try discriminate.
  destruct (String.eqb_spec s "desktop") as [->|_]; simpl.
  - intros [= <-]. auto.
  - destruct (String.eqb_spec s "server") as [->|_]; [|discriminate].
    intros [= <-]. auto.
Qed.

Lemma reachable_type s id t :
  reachable s -> tasks s !! id = Some t ->
  type t = "desktop" \/ type t = "server".
Proof.
  intros Hs. revert id t.
  induction Hs as [|s e s' Hs IH Hstep]; intros id t Ht.
  - unfold init in Ht. simpl in Ht. by rewrite lookup_empty in Ht.
  - pose proof (reachable_inv _ Hs) as Hinv.
    destruct (step_effect _ _ _ Hinv Hstep)
      as [_ ->|v j ty _ Hv _ _ Hts _|j k t0 k' t' _ Ht0 Hm Hts _]; eauto.
    + rewrite Hts in Ht. destruct (decide (id = j)) as [->|Hne].
      * rewrite lookup_insert_eq in Ht. injection Ht as <-. simpl.
        by destruct (includes_type_cases _ _ Hv).
      * rewrite lookup_insert_ne in Ht by done. eauto.
    + rewrite Hts in Ht. destruct (decide (id = j)) as [->|Hne].
      * rewrite lookup_insert_eq in Ht. injection Ht as <-.
        assert (type t' = type t0) by (by destruct Hm).
        specialize (IH _ _ Ht0). congruence.
      * rewrite lookup_insert_ne in Ht by done. eauto.
Qed.

(** X4: the [type] of every stored task is ['desktop'] or ['server'], at
    all times, so the image pulled for it is one of the two images of the
    backend. *)
Theorem stored_type_valid s id t :
  reachable s -> tasks s !! id = Some t ->
  (type t = "desktop" \/ type t = "server") /\
  (image_of (type t) = "dorowu/ubuntu-desktop-lxde-vnc:latest" \/
   image_of (type t) = "ubuntu:24.04") /\
  (get_prop "type" (body (get_status id s)) = Some (JStr "desktop") \/
   get_prop "type" (body (get_status id s)) = Some (JStr "server")).
Proof.
  intros Hs Ht. pose proof (reachable_type _ _ _ Hs Ht) as Hty.
  split; [exact Hty|]. unfold get_status. rewrite Ht. cbn [body].
  destruct (task_json_props t) as (_ & -> & _).
  destruct Hty as [-> | ->]; split; auto.
Qed.

Lemma stored_type_valid_witness :
  (type (completed 30000 "c1" (new_task "desktop")) = "desktop" \/
   type (completed 30000 "c1" (new_task "desktop")) = "server") /\
  (image_of (type (completed 30000 "c1" (new_task "desktop")))
   = "dorowu/ubuntu-desktop-lxde-vnc:latest" \/
   image_of (type (completed 30000 "c1" (new_task "desktop")))
   = "ubuntu:24.04") /\
  (get_prop "type" (body (get_status "t1" (after trace_running)))
   = Some (JStr "desktop") \/
   get_prop "type" (body (get_status "t1" (after trace_running)))
   = Some (JStr "server")).
Proof.
  apply (stored_type_valid (after trace_running) "t1"
           (completed 30000 "c1" (new_task "desktop"))).
  - apply after_reachable. eexists. vm_compute. reflexivity.
  - vm_compute. reflexivity.
Defined.

(** ** Pipelines, one resumption at a time *)


(** The relation [moves] describes [step] completely: a move of the
    pipeline [id] is what [step] computes, whatever the rest of the state. *)
Lemma moves_step e id k t k' t' s :
  procs s !! id = Some k -> tasks s !! id = Some t ->
  deliverable e -> moves e id k t k' t' ->
  step e s = Some {| tasks := <[id := t']> (tasks s);
                     procs := <[id := k']> (procs s) |}.
Proof.
  intros Hk Ht Hd Hm.
  destruct Hm as [id rnd t Hu|id i p rnd t Hi Hu|id i p rnd t|id p h t
                 |id p h t|id p h t|e id k t msg Hsub Hth];
    unfold step; cbn [deliverable] in Hd.
  - rewrite Hk, Hu. unfold resume, seg_pulled.
    by erewrite try_catch_update by eassumption.
  - rewrite Hk, Hu. unfold resume, seg_probed, after_bind.
    apply Nat.ltb_lt in Hi. rewrite Hi, try_catch_ret.
    by rewrite (insert_id _ _ _ Ht).
  - rewrite Hk, Hd. unfold resume, seg_probed, after_bind.
    rewrite try_catch_ret. by rewrite (insert_id _ _ _ Ht).
  - rewrite Hk. unfold resume, seg_created.
    by erewrite try_catch_update by eassumption.
  - rewrite Hk. unfold resume, seg_started.
    rewrite try_catch_ret. by rewrite (insert_id _ _ _ Ht).
  - rewrite Hk. unfold resume.
    by erewrite try_catch_timer by eassumption.
  - destruct e as [| |j [|m] rnd|j l rnd|j [h|m]|j [|m]|j], k;
      simpl in Hth, Hsub; try discriminate;
      injection Hsub as ->; rewrite Hk.
    + injection Hth as ->. rewrite Hd. unfold resume, seg_pulled.
      by erewrite try_catch_throw by eassumption.
    + rewrite Hd. unfold resume, seg_probed.
      destruct (after_bind i p l rnd); try discriminate.
      injection Hth as ->. by erewrite try_catch_throw by eassumption.
    + injection Hth as ->. unfold resume, seg_created.
      by erewrite try_catch_throw by eassumption.
    + injection Hth as ->. unfold resume, seg_started.
      by erewrite try_catch_throw by eassumption.
Qed.

Lemma moves_budget e id k t k' t' :
  consistent k t -> moves e id k t k' t' -> budget k' < budget k.
Proof.
  intros Hc Hm.
  destruct Hm as [| id i p rnd t Hi _ |id i p rnd t| | | |e id k t msg _ Hth];
    simpl in *; unfold attempts in *; try lia.
  destruct e as [| |? []| | ? []|? []|], k; simpl in *; try discriminate;
    unfold attempts in *; lia.
Qed.

Lemma resumes_subject id e j :
  subject e = Some j -> resumes id e = bool_decide (j = id).
Proof.
  intros Hj. unfold resumes. rewrite Hj.
  apply bool_decide_ext. split; congruence.
Qed.

Lemma step_budget s e s' id :
  inv s -> step e s = Some s' ->
  budget_at s' id + (if resumes id e then 1 else 0) <= budget_at s id.
Proof.
  intros Hinv Hstep.
  destruct (step_effect _ _ _ Hinv Hstep)
    as [Hsub ->|v j ty -> _ Hp _ _ Hps|j k t k' t' Hk Ht Hm _ Hps].
  - unfold resumes. rewrite Hsub. simpl. lia.
  - unfold resumes, budget_at. simpl. rewrite Hps.
    destruct (decide (id = j)) as [->|Hne].
    + rewrite lookup_insert_eq, Hp. simpl. lia.
    + rewrite lookup_insert_ne by done. lia.
  - destruct (moves_throws _ _ _ _ _ _ Hm) as [Hsub _].
    rewrite (resumes_subject _ _ _ Hsub). unfold budget_at. rewrite Hps.
    destruct (decide (id = j)) as [->|Hne].
    + rewrite lookup_insert_eq, Hk, bool_decide_eq_true_2 by done.
      destruct (inv_lookup _ _ _ Hinv Hk) as (t0 & Ht0 & Hc).
      assert (t0 = t) by congruence. subst t0.
      pose proof (moves_budget _ _ _ _ _ _ Hc Hm). lia.
    + rewrite lookup_insert_ne, bool_decide_eq_false_2 by done. lia.
Qed.

Lemma budget_at_le s id : reachable s -> budget_at s id <= 104.
Proof.
  intros Hs. unfold budget_at.
  destruct (procs s !! id) as [k|] eqn:Hk; [|lia].
  destruct (inv_lookup _ _ _ (reachable_inv _ Hs) Hk) as (t & _ & Hc).
  destruct k; simpl in *; lia.
Qed.

Lemma settled_refuses s id e :
  procs s !! id = Some Settled -> resumes id e = true -> step e s = None.
Proof.
  intros Hk Hr. apply bool_decide_eq_true_1 in Hr.
  destruct e; simpl in Hr; try discriminate; injection Hr as ->;
    simpl; by rewrite Hk.
Qed.

(** X5: every pipeline terminates after a bounded number of resumptions.
    Along any execution the resumptions delivered to one pipeline are paid
    for out of its [budget], which starts at 104 (the pull, 100 probes, the
    create, the start, the timer) and is 0 once it has settled; a settled
    pipeline accepts no completion at all. *)
Theorem pipeline_resumptions_bounded s evs s' id :
  reachable s -> run evs s = Some s' ->
  deliveries id evs + budget_at s' id <= budget_at s id /\
  budget_at s id <= 104 /\
  (procs s' !! id = Some Settled ->
   forall e, resumes id e = true -> step e s' = None).
Proof.
  intros Hs Hrun. split; [|split].
  - revert s Hs Hrun. induction evs as [|e evs IH]; simpl; intros s Hs Hrun.
    + injection Hrun as <-. unfold deliveries. simpl. lia.
    + destruct (step e s) as [s1|] eqn:Hstep; [|discriminate].
      specialize (IH s1 ltac:(eauto using reach_step) Hrun).
      pose proof (step_budget _ _ _ id (reachable_inv _ Hs) Hstep) as Hb.
      unfold deliveries in *. rewrite filter_cons.
      destruct (resumes id e); case_decide; simpl; try done; lia.
  - by apply budget_at_le.
  - intros Hk e. by apply settled_refuses.
Qed.

Lemma pipeline_resumptions_bounded_witness :
  deliveries "t1" [StartDone "t1" Resolved; TimerFired "t1"]
  + budget_at (after trace_running) "t1"
  <= budget_at (after trace_starting) "t1" /\
  budget_at (after trace_starting) "t1" <= 104 /\
  (procs (after trace_running) !! "t1" = Some Settled ->
   forall e, resumes "t1" e = true -> step e (after trace_running) = None).
Proof.
  apply (pipeline_resumptions_bounded (after trace_starting)
           [StartDone "t1" Resolved; TimerFired "t1"] (after trace_running)).
  - apply after_reachable. eexists. vm_compute. reflexivity.
  - vm_compute. reflexivity.
Defined.



Lemma moves_step_at (σ : gmap string Task) (π : gmap string cont)
    e id k t k' t' :
  deliverable e -> moves e id k t k' t' ->
  step e {| tasks := <[id := t]> σ; procs := <[id := k]> π |}
  = Some {| tasks := <[id := t']> σ; procs := <[id := k']> π |}.
Proof.
  intros Hd Hm.
  erewrite moves_step; eauto; simpl; try apply lookup_insert_eq.
  by rewrite !insert_insert_eq.
Qed.

(** X7: the success path, end to end.  A deploy request of a valid type
    followed by a successful pull, a first probe that binds, a successful
    create and start and the timer leaves one new task, Running, with the
    handle the runtime returned and the port of the first candidate, which
    lies in [30000 .. 39999]; no other task is touched. *)
Theorem deploy_runs_to_running s v uuid ty r1 r2 h :
  tasks s !! uuid = None -> includes_type v = Some ty ->
  is_unit r1 = true -> is_unit r2 = true ->
  exists s',
    run [Deploy v uuid; PullDone uuid Resolved r1; BindDone uuid true r2;
         CreateDone uuid (inl h); StartDone uuid Resolved; TimerFired uuid] s
    = Some s' /\
    tasks s'
    = <[uuid := {| status := Running; type := ty; containerId := Some h;
                   hostPort := Some (candidate r1); error := None |}]>
        (tasks s) /\
    procs s' = <[uuid := Settled]> (procs s) /\
    (30000 <= candidate r1 < 40000)%Z /\
    get_prop "hostPort" (body (get_status uuid s'))
    = Some (JNum (candidate r1)).
Proof.
  intros Hfresh Hty Hr1 Hr2.
  eexists. split; [|split; [|split; [|split]]].
  - cbn [run]. unfold step at 1. rewrite Hty, Hfresh.
    rewrite (deploy_valid _ _ _ _ Hty). cbn [fst].
    erewrite moves_step_at; [|exact Hr1|by constructor].
    erewrite moves_step_at; [|exact Hr2|by constructor].
    erewrite moves_step_at; [|exact I|by constructor].
    erewrite moves_step_at; [|exact I|by constructor].
    erewrite moves_step_at; [|exact I|by constructor].
    reflexivity.
  - reflexivity.
  - reflexivity.
  - by apply candidate_range.
  - unfold get_status. cbn [tasks]. rewrite lookup_insert_eq. reflexivity.
Qed.

Lemma deploy_runs_to_running_witness :
  exists s',
    run [Deploy (JStr "server") "t2"; PullDone "t2" Resolved rnd_top;
         BindDone "t2" true rnd0; CreateDone "t2" (inl "c2");
         StartDone "t2" Resolved; TimerFired "t2"] (after trace_running)
    = Some s' /\
    tasks s'
    = <[ "t2" := {| status := Running; type := "server";
                    containerId := Some "c2";
                    hostPort := Some (candidate rnd_top); error := None |}]>
        (tasks (after trace_running)) /\
    procs s' = <[ "t2" := Settled]> (procs (after trace_running)) /\
    (30000 <= candidate rnd_top < 40000)%Z /\
    get_prop "hostPort" (body (get_status "t2" s'))
    = Some (JNum (candidate rnd_top)).
Proof.
  apply (deploy_runs_to_running (after trace_running) (JStr "server") "t2"
           "server" rnd_top rnd0 "c2").
  - vm_compute. reflexivity.
  - reflexivity.
  - vm_compute. reflexivity.
  - vm_compute. reflexivity.
Defined.

(** ** The request sent to the runtime *)

Lemma parse_dec_dec n : parse_dec (dec n) = Some n.
Proof.
  unfold parse_dec, dec. rewrite NilZero.isi.
  - simpl. by rewrite DecimalZ.of_to.
  - destruct n; simpl; try discriminate.
    intros [= H]. by apply Unsigned.to_uint_nonnil in H.
  - destruct n; simpl; try discriminate.
    intros [= H]. by apply Unsigned.to_uint_nonnil in H.
Qed.

(** X8: the host port written into the port binding of [createOptions] is
    the decimal numeral of the allocated port: read back as a number it is
    that port.  The binding is the only one, and it is for the one port the
    container exposes: [6080/tcp] for a desktop, [22/tcp] otherwise. *)
Theorem createOptions_binds_allocated_port ty id port :
  exists key hostPort,
    PortBindings (make_createOptions ty id port) = [(key, [hostPort])] /\
    ExposedPorts (make_createOptions ty id port) = [key] /\
    parse_dec hostPort = Some port /\
    key = (if String.eqb ty "desktop" then "6080/tcp" else "22/tcp") /\
    Image (make_createOptions ty id port) = image_of ty.
Proof.
  unfold make_createOptions.
  destruct (String.eqb ty "desktop"); simpl;
    eexists _, _; repeat split; apply parse_dec_dec.
Qed.

Lemma append_inj_r (a b c : string) : a +:+ b = a +:+ c -> b = c.
Proof. induction a as [|x a IH]; simpl; [done|]. intros [= H]. auto. Qed.

(** X9: containers of different tasks get different names: the [name] in
    [createOptions] determines the task id, and whether the type is
    ['desktop']. *)
Theorem createOptions_name_injective ty1 id1 p1 ty2 id2 p2 :
  name (make_createOptions ty1 id1 p1) = name (make_createOptions ty2 id2 p2)
  -> id1 = id2 /\ String.eqb ty1 "desktop" = String.eqb ty2 "desktop".
Proof.
  unfold make_createOptions.
  destruct (String.eqb ty1 "desktop"), (String.eqb ty2 "desktop"); simpl;
    intros H; try discriminate; split; try reflexivity.
  - by apply (append_inj_r "ubuntu_desktop_").
  - by apply (append_inj_r "ubuntu_server_").
Qed.

Lemma createOptions_name_injective_witness :
  "t1" = "t1" /\ String.eqb "desktop" "desktop" = String.eqb "desktop" "desktop".
Proof.
  apply (createOptions_name_injective "desktop" "t1" 30000 "desktop" "t1"
           39999).
  reflexivity.
Defined.

(** ** Coverage of the port range *)

(** X10: [getFreePort] can draw every port of [30000 .. 39999]: for each
    of them there is a value of [Math.random()] in [[0,1)] whose candidate
    it is.  (The upper end 40000 of the range is never drawn.) *)
Theorem every_port_is_a_candidate p :
  (30000 <= p < 40000)%Z ->
  exists rnd, is_unit rnd = true /\ candidate rnd = p.
Proof.
  intros Hp.
  set (n := (p - 30000)%Z).
  set (m := ((n * 16384 + 9999) / 10000)%Z).
  assert (Hm : (n * 16384 <= m * 10000 < n * 16384 + 10000)%Z).
  { pose proof (Z.div_mod (n * 16384 + 9999) 10000 ltac:(lia)) as Hdm.
    pose proof (Z.mod_pos_bound (n * 16384 + 9999) 10000 ltac:(lia)) as Hr.
    fold m in Hdm. unfold n in *. lia. }
  assert (Hm0 : (0 <= m < 16384)%Z) by (unfold n in *; lia).
  exists {| mant := m; expo := 14 |}. split.
  - unfold is_unit. cbn [mant expo].
    change (2 ^ 14)%Z with 16384%Z.
    change (2 ^ 53)%Z with 9007199254740992%Z.
    repeat (apply andb_true_intro; split);
      (apply Z.leb_le || apply Z.ltb_lt); lia.
  - unfold candidate, floor_mul, round53, port_min, port_max.
    cbn [mant expo]. change (40000 - 30000)%Z with 10000%Z.
    assert (Hlog : (Z.log2 (m * 10000) - 52 <= 0)%Z).
    { destruct (Z.eq_dec m 0%Z) as [->|]; [simpl; lia|].
      assert (Z.log2 (m * 10000) < 53)%Z; [|lia].
      apply Z.log2_lt_pow2; [lia|].
      change (2 ^ 53)%Z with 9007199254740992%Z. lia. }
    apply Z.leb_le in Hlog. rewrite Hlog.
    change (2 ^ 14)%Z with 16384%Z.
    assert (m * 10000 / 16384 = n)%Z; [|unfold n in *; lia].
    symmetry. apply (Z.div_unique _ _ n (m * 10000 - n * 16384)); lia.
Qed.

Lemma every_port_is_a_candidate_witness :
  exists rnd, is_unit rnd = true /\ candidate rnd = 34567%Z.
Proof. apply (every_port_is_a_candidate 34567). lia. Defined.

(** ** [server.js]: the synchronous create *)

(** X11: [POST /create] always answers 200 with a boolean [ok].  [ok] is
    [true] exactly when the create, the start and the inspect succeeded and
    [data.NetworkSettings.Ports[port/tcp][0].HostPort] could be read; the
    response then carries that value as [port] (no [port] at all when the
    binding has no [HostPort]). *)
Theorem create_ok_iff_port_read ty rc rs ri :
  code (snd (create ty rc rs ri)) = 200%Z /\
  (exists b, get_prop "ok" (body (snd (create ty rc rs ri)))
             = Some (JBool b)) /\
  (get_prop "ok" (body (snd (create ty rc rs ri))) = Some (JBool true)
   <-> exists data hostPort,
         rc = inl tt /\ rs = inl tt /\ ri = inl data /\
         read_host_port data (port_key ty) = inl hostPort /\
         (hostPort = JUndefined /\
          get_prop "port" (body (snd (create ty rc rs ri))) = None
          \/
          hostPort <> JUndefined /\
          get_prop "port" (body (snd (create ty rc rs ri)))
          = Some hostPort)).
Proof.
  unfold create.
  destruct rc as [[]|e1]; [|simpl; split; [done|split; [eauto|]]; split;
    [discriminate | intros (? & ? & ? & _); discriminate]].
  destruct rs as [[]|e2]; [|simpl; split; [done|split; [eauto|]]; split;
    [discriminate | intros (? & ? & _ & ? & _); discriminate]].
  destruct ri as [data|e3]; [|simpl; split; [done|split; [eauto|]]; split;
    [discriminate | intros (? & ? & _ & _ & ? & _); discriminate]].
  destruct (read_host_port data (port_key ty)) as [hp|e4] eqn:Hread.
  - simpl. split; [done|]. split; [eauto|]. split; [|done].
    intros _. exists data, hp. repeat split; auto.
    destruct hp; simpl; (by left) || (by right).
  - simpl. split; [done|]. split; [eauto|]. split; [discriminate|].
    intros (d & hp & _ & _ & [= <-] & Hr & _). congruence.
Qed.

(** X12: [POST /create] stops at the first runtime call that fails and
    reports that error: the container is started only if it was created
    and inspected only if it was started, and whatever the [type] of the
    request the first call is the create, asking for an ephemeral host
    port (["0"]) for the one exposed port. *)
Theorem create_stops_at_first_failure ty rc rs ri :
  head (fst (create ty rc rs ri)) = Some (DockerCreate (create_req ty)) /\
  cr_PortBindings (create_req ty) = [(port_key ty, ["0"])] /\
  cr_ExposedPorts (create_req ty) = [port_key ty] /\
  (DockerStart ∈ fst (create ty rc rs ri) <-> exists u, rc = inl u) /\
  (DockerInspect ∈ fst (create ty rc rs ri)
   <-> (exists u, rc = inl u) /\ exists u, rs = inl u) /\
  (forall e, rc = inr e -> snd (create ty rc rs ri) = create_failed e) /\
  (forall u e, rc = inl u -> rs = inr e ->
     snd (create ty rc rs ri) = create_failed e) /\
  (forall u u' e, rc = inl u -> rs = inl u' -> ri = inr e ->
     snd (create ty rc rs ri) = create_failed e).
Proof.
  unfold create.
  destruct rc as [[]|e1], rs as [[]|e2], ri as [data|e3];
    try destruct (read_host_port data (port_key ty)); simpl;
    repeat split; intros; simplify_eq; eauto;
    try (repeat constructor; done);
    try (exfalso; set_solver).
Qed.

(** X13: when the inspected container has no binding for the exposed port
    (the runtime reports [null], or nothing, under [Ports[port/tcp]]),
    [POST /create] answers [ok: false] with a [TypeError], although the
    container has been created and started; it is not stopped. *)
Theorem create_unbound_port ty data ns ports bindings :
  member data "NetworkSettings" = inl ns ->
  member ns "Ports" = inl ports ->
  member ports (port_key ty) = inl bindings ->
  bindings = JNull \/ bindings = JUndefined ->
  fst (create ty (inl tt) (inl tt) (inl data))
  = [DockerCreate (create_req ty); DockerStart; DockerInspect] /\
  exists what,
    (what = "null" \/ what = "undefined") /\
    body (snd (create ty (inl tt) (inl tt) (inl data)))
    = JObj [("ok", JBool false);
            ("error", JStr ("TypeError: Cannot read properties of " +:+ what
                            +:+ " (reading '0')"))].
Proof.
  intros Hns Hports Hb Hnone. unfold create, read_host_port.
  rewrite Hns, Hports, Hb.
  destruct Hnone as [-> | ->]; simpl; (split; [reflexivity|]);
    [exists "null" | exists "undefined"]; split; auto.
Qed.

Lemma create_unbound_port_witness :
  fst (create (JStr "server") (inl tt) (inl tt)
         (inl (JObj [("NetworkSettings",
                      JObj [("Ports", JObj [("22/tcp", JNull)])])])))
  = [DockerCreate (create_req (JStr "server")); DockerStart; DockerInspect] /\
  exists what,
    (what = "null" \/ what = "undefined") /\
    body (snd (create (JStr "server") (inl tt) (inl tt)
                 (inl (JObj [("NetworkSettings",
                              JObj [("Ports", JObj [("22/tcp", JNull)])])]))))
    = JObj [("ok", JBool false);
            ("error", JStr ("TypeError: Cannot read properties of " +:+ what
                            +:+ " (reading '0')"))].
Proof.
  apply (create_unbound_port (JStr "server")
           (JObj [("NetworkSettings",
                   JObj [("Ports", JObj [("22/tcp", JNull)])])])
           (JObj [("Ports", JObj [("22/tcp", JNull)])])
           (JObj [("22/tcp", JNull)]) JNull).
  - reflexivity.
  - reflexivity.
  - vm_compute. reflexivity.
  - left. reflexivity.
Defined.

(** ** [frontend/src/index.js]: the link shown after a click *)

Lemma member_port_of_ok hp :
  member (body (create_ok hp)) "port" = inl hp.
Proof. destruct hp; reflexivity. Qed.

(** X14: a click shows a new link only when the whole creation succeeded:
    the link is then ["http://YOUR-IP:"] followed by the host port the
    runtime reported, for a server as for a desktop.  When any runtime
    call or the reading of the port fails, the link on screen stays as it
    was and the error of the response is not shown. *)
Theorem click_shows_reported_port t rc rs ri link :
  (forall data hostPort,
      rc = inl tt -> rs = inl tt -> ri = inl data ->
      read_host_port data (port_key (JStr t)) = inl hostPort ->
      click t rc rs ri link = "http://YOUR-IP:" +:+ to_str hostPort) /\
  (get_prop "ok" (body (snd (create (JStr t) rc rs ri))) <> Some (JBool true)
   -> click t rc rs ri link = link).
Proof.
  unfold click. split.
  - intros data hp -> -> -> Hread. unfold create. rewrite Hread.
    cbn [snd]. unfold on_created. rewrite member_port_of_ok. reflexivity.
  - unfold create.
    destruct rc as [[]|e1]; [|reflexivity].
    destruct rs as [[]|e2]; [|reflexivity].
    destruct ri as [data|e3]; [|reflexivity].
    destruct (read_host_port data (port_key (JStr t))); [|reflexivity].
    simpl. congruence.
Qed.

Lemma click_shows_reported_port_witness :
  click "server" (inl tt) (inl tt)
    (inl (JObj [("NetworkSettings",
                 JObj [("Ports",
                        JObj [("22/tcp",
                               JArr [JObj [("HostIp", JStr "0.0.0.0");
                                           ("HostPort", JStr "32768")]])])])]))
    "http://YOUR-IP:1"
  = "http://YOUR-IP:32768".
Proof.
  destruct (click_shows_reported_port "server" (inl tt) (inl tt)
              (inl (JObj [("NetworkSettings",
                 JObj [("Ports",
                        JObj [("22/tcp",
                               JArr [JObj [("HostIp", JStr "0.0.0.0");
                                           ("HostPort", JStr "32768")]])])])]))
              "http://YOUR-IP:1") as [Hshown _].
  apply (Hshown _ (JStr "32768") eq_refl eq_refl eq_refl).
  vm_compute. reflexivity.
Defined.

(** ** [frontend/src/App.jsx]: the polling client *)

Lemma member_task_json t k :
  member (task_json t) k = inl (default JUndefined (get_prop k (task_json t))).
Proof. reflexivity. Qed.

Lemma poll_stops_task t :
  poll_stops (task_json t) = terminal (status t).
Proof.
  unfold poll_stops. rewrite member_task_json.
  destruct (task_json_props t) as (-> & _). by destruct (status t).
Qed.

(** X15: the client stops polling exactly when the task it polls has
    settled (status ['running'] or ['error']); it keeps polling on a 404.
    Stopping loses nothing: every later status query for that id returns
    the same response. *)
Theorem poll_stops_when_final s id :
  reachable s ->
  (poll_stops (body (get_status id s)) = true
   <-> exists t, tasks s !! id = Some t /\ terminal (status t) = true) /\
  (poll_stops (body (get_status id s)) = true ->
   forall evs s', run evs s = Some s' -> get_status id s' = get_status id s).
Proof.
  intros Hs.
  assert (Hiff : poll_stops (body (get_status id s)) = true
     <-> exists t, tasks s !! id = Some t /\ terminal (status t) = true).
  { unfold get_status. destruct (tasks s !! id) as [t|] eqn:Ht; cbn [body].
    - rewrite poll_stops_task. split; [eauto|].
      intros (t' & [= <-] & Hterm). exact Hterm.
    - split; [discriminate | intros (? & ? & _); discriminate]. }
  split; [exact Hiff|].
  intros Hstop evs s' Hrun. apply Hiff in Hstop as (t & Ht & Hterm).
  unfold get_status. by rewrite (settled_forever _ _ _ _ _ Hs Ht Hterm Hrun), Ht.
Qed.

Lemma poll_stops_when_final_witness :
  (poll_stops (body (get_status "t1" (after trace_pull_failed))) = true
   <-> exists t, tasks (after trace_pull_failed) !! "t1" = Some t /\
                 terminal (status t) = true) /\
  (poll_stops (body (get_status "t1" (after trace_pull_failed))) = true ->
   forall evs s',
     run evs (after trace_pull_failed) = Some s' ->
     get_status "t1" s' = get_status "t1" (after trace_pull_failed)).
Proof.
  apply (poll_stops_when_final (after trace_pull_failed) "t1").
  apply after_reachable. eexists. vm_compute. reflexivity.
Defined.

(** X16: for a task that is Running, [getAccessUrl] applied to the status
    response is [http://host:port] for a desktop and [ssh://root@host:port]
    for a server, where [port] is the decimal numeral of the task's
    [hostPort], a number of [30000 .. 39999]. *)
Theorem access_url_of_running s id t host :
  reachable s -> tasks s !! id = Some t -> status t = Running ->
  exists p,
    hostPort t = Some p /\ (30000 <= p < 40000)%Z /\
    parse_dec (dec p) = Some p /\
    (type t = "desktop" /\
     getAccessUrl host (body (get_status id s))
     = inl ("http://" +:+ host +:+ ":" +:+ dec p)
     \/
     type t = "server" /\
     getAccessUrl host (body (get_status id s))
     = inl ("ssh://root@" +:+ host +:+ ":" +:+ dec p)).
Proof.
  intros Hs Ht Hst.
  destruct (running_held _ _ _ Hs Ht Hst) as (_ & p & Hp & Hr).
  exists p. split; [exact Hp|]. split; [exact Hr|].
  split; [apply parse_dec_dec|].
  unfold get_status. rewrite Ht. cbn [body]. unfold getAccessUrl.
  rewrite !member_task_json.
  destruct (task_json_props t) as (_ & -> & _ & -> & _). rewrite Hp.
  destruct (reachable_type _ _ _ Hs Ht) as [Hty|Hty]; rewrite Hty; auto.
Qed.

Lemma access_url_of_running_witness :
  exists p,
    hostPort (completed 30000 "c1" (new_task "desktop")) = Some p /\
    (30000 <= p < 40000)%Z /\
    parse_dec (dec p) = Some p /\
    (type (completed 30000 "c1" (new_task "desktop")) = "desktop" /\
     getAccessUrl "example.org" (body (get_status "t1" (after trace_running)))
     = inl ("http://" +:+ "example.org" +:+ ":" +:+ dec p)
     \/
     type (completed 30000 "c1" (new_task "desktop")) = "server" /\
     getAccessUrl "example.org" (body (get_status "t1" (after trace_running)))
     = inl ("ssh://root@" +:+ "example.org" +:+ ":" +:+ dec p)).
Proof.
  apply (access_url_of_running (after trace_running) "t1"
           (completed 30000 "c1" (new_task "desktop")) "example.org").
  - apply after_reachable. eexists. vm_compute. reflexivity.
  - vm_compute. reflexivity.
  - reflexivity.
Defined.

(** X17: the client starts to poll exactly when the deploy request was
    accepted (and the id it got is not the empty string): after the 400
    response no status query is made. *)
Theorem polls_iff_accepted v uuid s :
  starts_polling (body (snd (deploy v uuid s))) = true
  <-> is_Some (includes_type v) /\ uuid <> "".
Proof.
  unfold deploy. destruct (includes_type v) as [ty|]; cbn [snd].
  - unfold starts_polling. simpl.
    destruct (String.eqb_spec uuid "") as [->|Hne]; simpl.
    + split; [discriminate | by intros [_ ?]].
    + split; [eauto | reflexivity].
  - split; [discriminate | intros [[? ?] _]; discriminate].
Qed.
